(** * gcsls: listing bucket objects whose keys match a glob pattern

    A shallow embedding of [main.go].  Go strings are byte sequences; they
    are modelled as [string], one [ascii] per byte.  Integers returned by
    the [strings] package are modelled in [Z] (an index, or [-1]). *)

From Stdlib Require Import String Ascii List ZArith Lia Bool Permutation.
Import ListNotations.

Local Open Scope string_scope.
Local Open Scope Z_scope.

(** ** The parts of Go's [strings] package that [main.go] calls *)

Module strings.

(** [strings.HasPrefix(s, prefix)]. *)
Fixpoint HasPrefix (s prefix : string) {struct prefix} : bool :=
  match prefix with
  | EmptyString => true
  | String p prefix' =>
      match s with
      | EmptyString => false
      | String c s' => Ascii.eqb c p && HasPrefix s' prefix'
      end
  end.

(** [s[n:]] for [0 <= n <= len(s)]. *)
Fixpoint sliceFrom (s : string) (n : nat) : string :=
  match n with
  | O => s
  | S n' => match s with
            | EmptyString => EmptyString
            | String _ s' => sliceFrom s' n'
            end
  end.

(** [s[:n]] for [0 <= n <= len(s)]. *)
Definition sliceTo (s : string) (n : Z) : string :=
  String.substring 0 (Z.to_nat n) s.

(** [strings.TrimPrefix(s, prefix)]: [s] without the leading [prefix],
    or [s] itself when it does not start with [prefix]. *)
Definition TrimPrefix (s prefix : string) : string :=
  if HasPrefix s prefix then sliceFrom s (String.length prefix) else s.

(** Membership of a byte in a set of ASCII characters. *)
Fixpoint containsByte (chars : string) (c : ascii) : bool :=
  match chars with
  | EmptyString => false
  | String d chars' => Ascii.eqb c d || containsByte chars' c
  end.

(** [strings.IndexAny(s, chars)] for ASCII [chars]: the index of the first
    byte of [s] that is in [chars], or [-1]. *)
Fixpoint IndexAny (s chars : string) : Z :=
  match s with
  | EmptyString => -1
  | String c s' =>
      if containsByte chars c then 0
      else let i := IndexAny s' chars in
           if i =? -1 then -1 else i + 1
  end.

(** [strings.Index(s, substr)]: the index of the first occurrence of
    [substr] in [s], or [-1]. *)
Fixpoint Index (s substr : string) : Z :=
  if HasPrefix s substr then 0
  else match s with
       | EmptyString => -1
       | String _ s' =>
           let i := Index s' substr in
           if i =? -1 then -1 else i + 1
       end.

(** The loop of [genSplit] for a non-empty separator: at most [k] cuts. *)
Fixpoint splitLoop (k : nat) (s sep : string) : list string :=
  match k with
  | O => [s]
  | S k' =>
      let m := Index s sep in
      if m <? 0 then [s]
      else sliceTo s m
           :: splitLoop k' (sliceFrom s (Z.to_nat m + String.length sep)) sep
  end.

(** [strings.SplitN(s, sep, n)] for a non-empty [sep] and [n >= 0]
    ([n = 0] gives the nil slice). *)
Definition SplitN (s sep : string) (n : nat) : list string :=
  match n with
  | O => []
  | S k => splitLoop k s sep
  end.

End strings.

(** ** [getPrefixFromPattern] *)

(** [getPrefixFromPattern] extracts the part of a string before the first
    wildcard character; wildcards are ['*'], ['?'] and ['[']. *)
Definition getPrefixFromPattern (pattern : string) : string :=
  let wildcardIndex := strings.IndexAny pattern "*?[" in
  if wildcardIndex =? -1 then
    (* No wildcards, the whole pattern is a prefix. *)
    pattern
  else
    (* The substring up to the first wildcard. *)
    strings.sliceTo pattern wildcardIndex.

(** A byte is a wildcard when it is one of ['*'], ['?'], ['[']. *)
Definition isWildcard (c : ascii) : Prop :=
  c = "*"%char \/ c = "?"%char \/ c = "["%char.

(** A string in which no wildcard byte occurs. *)
Definition wildcardFree (s : string) : Prop :=
  forall c, In c (list_ascii_of_string s) -> ~ isWildcard c.

(** ** Go [error] values *)

(** An [error] built by [errors.New] or by [fmt.Errorf] without [%w]
    ([errorString]), or by [fmt.Errorf] with [%w] ([wrapError]: the
    formatted message and the wrapped error). *)
Inductive error : Type :=
| errorString (s : string)
| wrapError (msg : string) (err : error).

(** The [Error()] method. *)
Definition Error (e : error) : string :=
  match e with
  | errorString s => s
  | wrapError msg _ => msg
  end.

(** [fmt.Errorf(prefix + "%w", err)]. *)
Definition Errorf_w (prefix : string) (err : error) : error :=
  wrapError (prefix ++ Error err) err.

(** The error taxonomy of the design notes, read off the messages that
    [listObjectsWithWildcard] builds. *)
Inductive ErrorKind : Type := InvalidPath | PatternError | BackendError.

Definition kindOf (e : error) : option ErrorKind :=
  let msg := Error e in
  if strings.HasPrefix msg "invalid GCS path: " then Some InvalidPath
  else if strings.HasPrefix msg "invalid glob pattern '" then Some PatternError
  else if strings.HasPrefix msg "failed to create GCS client: "
          || strings.HasPrefix msg "failed to iterate objects: "
       then Some BackendError
  else None.

(** ** The glob matcher *)

Module doublestar.

(** The package [github.com/bmatcuk/doublestar/v4] is imported by
    [main.go]; its code is not part of the sources.  What follows gives
    [doublestar.Match] as section 4.4 of the design notes describes it. *)

(** Modelled from the spec: the package's error value for a malformed
    pattern (the [PatternError] of section 4.4); its message is the one of
    Go's [path.ErrBadPattern]. *)
Definition ErrBadPattern : error := errorString "syntax error in pattern".

Inductive classItem : Type :=
| Single (c : ascii)
| Range (lo hi : ascii).

Inductive term : Type :=
| Lit (c : ascii)                 (* a literal or quoted character *)
| AnyChar                         (* [?] *)
| Star                            (* [*] *)
| DoubleStarSlash                 (* a whole segment [**/] *)
| DoubleStarEnd                   (* [**] as the last segment *)
| Class (negated : bool) (items : list classItem).

Definition isSeparator (c : ascii) : bool := Ascii.eqb c "/".

Definition consTerm (t : term) (r : option (list term)) : option (list term) :=
  option_map (cons t) r.

(** Closing a character class: a pending character, and a pending [-]
    after it, are literal members. *)
Definition closeClass (items : list classItem) (last : option ascii)
    (dash : bool) : list classItem :=
  match last with
  | None => items
  | Some lo => if dash then (items ++ [Single lo; Single "-"%char])%list
               else (items ++ [Single lo])%list
  end.

(** One member character [c] of a class, after [items], with [last] the
    previous single character and [dash] telling that [last-] was read. *)
Definition classChar (items : list classItem) (last : option ascii)
    (dash : bool) (c : ascii) : list classItem * option ascii * bool :=
  match last with
  | Some lo => if dash then ((items ++ [Range lo c])%list, None, false)
               else ((items ++ [Single lo])%list, Some c, false)
  | None => (items, Some c, false)
  end.

(** The members of a character class, read up to its closing [']'];
    [rest] continues with the pattern after the class.  [None] when the
    class does not end or is empty. *)
Definition classLoop (negated : bool) (rest : string -> option (list term))
    : string -> list classItem -> option ascii -> bool -> option (list term) :=
  fix class (q : string) (items : list classItem)
      (last : option ascii) (dash : bool) {struct q} : option (list term) :=
    match q with
    | EmptyString => None            (* the class did not end *)
    | String d q1 =>
        if Ascii.eqb d "]" then
          match closeClass items last dash with
          | [] => None               (* empty class *)
          | members => consTerm (Class negated members) (rest q1)
          end
        else if Ascii.eqb d "\" then
          match q1 with
          | EmptyString => None
          | String e q2 =>
              let '(items', last', dash') := classChar items last dash e in
              class q2 items' last' dash'
          end
        else if Ascii.eqb d "-" && negb dash
                && match last with Some _ => true | None => false end
        then class q1 items last true
        else
          let '(items', last', dash') := classChar items last dash d in
          class q1 items' last' dash'
    end.

(** Modelled from the spec: the syntax of the patterns of
    [doublestar.Match], section 4.4: [*], [?], [[...]], [**], and the
    quoting backslash of standard glob patterns.  The pattern as a list of
    terms, or [None] for a syntax error.  [startOfSegment] holds at the start of the pattern and after a
    separator: only there is [**] the recursive wildcard, and only when a
    separator or the end of the pattern follows it. *)
Fixpoint parse (startOfSegment : bool) (pattern : string)
    : option (list term) :=
  match pattern with
  | EmptyString => Some []
  | String c rest =>
      if Ascii.eqb c "*" then
        match rest with
        | String c1 rest1 =>
            if Ascii.eqb c1 "*" then
              if startOfSegment then
                match rest1 with
                | EmptyString => Some [DoubleStarEnd]
                | String c2 rest2 =>
                    if isSeparator c2
                    then consTerm DoubleStarSlash (parse true rest2)
                    else consTerm Star (parse false rest1)
                end
              else consTerm Star (parse false rest1)
            else consTerm Star (parse false rest)
        | EmptyString => Some [Star]
        end
      else if Ascii.eqb c "?" then consTerm AnyChar (parse false rest)
      else if Ascii.eqb c "[" then
        match rest with
        | String n rest1 =>
            if Ascii.eqb n "!" || Ascii.eqb n "^"
            then classLoop true (parse false) rest1 [] None false
            else classLoop false (parse false) rest [] None false
        | EmptyString => None         (* the class did not end *)
        end
      else if Ascii.eqb c "\" then
        match rest with
        | EmptyString => None         (* nothing to quote *)
        | String d rest1 => consTerm (Lit d) (parse (isSeparator d) rest1)
        end
      else consTerm (Lit c) (parse (isSeparator c) rest)
  end.

Definition inItem (c : ascii) (i : classItem) : bool :=
  match i with
  | Single d => Ascii.eqb c d
  | Range lo hi => (N_of_ascii lo <=? N_of_ascii c)%N
                   && (N_of_ascii c <=? N_of_ascii hi)%N
  end.

Definition inClass (negated : bool) (items : list classItem) (c : ascii) : bool :=
  xorb negated (existsb (inItem c) items).

(** Modelled from the spec: the match predicate of [doublestar.Match],
    section 4.4: [*] matches within one segment and never crosses a
    separator, [?] matches exactly one character of a segment, [[...]] one
    character of the class, [**] any number of path segments, including
    zero.  Does the whole [name] match the terms? *)
Fixpoint matchTerms (ts : list term) : string -> bool :=
  match ts with
  | [] => fun name => match name with EmptyString => true | _ => false end
  | Lit c :: ts' => fun name =>
      match name with
      | String d name' => Ascii.eqb d c && matchTerms ts' name'
      | EmptyString => false
      end
  | AnyChar :: ts' => fun name =>
      match name with
      | String d name' => negb (isSeparator d) && matchTerms ts' name'
      | EmptyString => false
      end
  | Class negated items :: ts' => fun name =>
      match name with
      | String d name' => inClass negated items d && matchTerms ts' name'
      | EmptyString => false
      end
  | Star :: ts' =>
      (* any run of characters of one segment *)
      fix star (name : string) : bool :=
        matchTerms ts' name
        || match name with
           | String d name' => negb (isSeparator d) && star name'
           | EmptyString => false
           end
  | DoubleStarSlash :: ts' =>
      (* no segment, or any number of segments, each with its separator *)
      (fix dstar (atSegment : bool) (name : string) : bool :=
         (atSegment && matchTerms ts' name)
         || match name with
            | String d name' => dstar (isSeparator d) name'
            | EmptyString => false
            end) true
  | DoubleStarEnd :: _ => fun _ => true
  end.

(** Modelled from the spec: [doublestar.Match(pattern, name)], the matcher
    of the imported package, whose code is not part of the sources.
    Section 4.4: standard glob semantics extended with [**]; a
    syntactically invalid pattern fails with the pattern error, identically
    for every name.  The result is the pair [(matched, err)]. *)
Definition Match (pattern name : string) : bool * option error :=
  match parse true pattern with
  | None => (false, Some ErrBadPattern)
  | Some ts => (matchTerms ts name, None)
  end.

End doublestar.

(** ** The storage backend and the process's standard output *)

(** What one call of [it.Next()] gives before [iterator.Done]: the
    attributes of an object (only [attrs.Name] is read) or an error. *)
Inductive next : Type :=
| Attrs (Name : string)
| NextErr (err : error).

(** The storage client as [listObjectsWithWildcard] sees it:
    [storage.NewClient] succeeds ([None]) or fails, and
    [client.Bucket(bucketName).Objects(ctx, &storage.Query{Prefix: prefix})]
    is an iterator, given by the results of its successive [Next] calls up
    to [iterator.Done]. *)
Record Backend : Type := {
  NewClient : option error;
  Objects : string -> string -> list next
}.

(** The calls made to the backend, in order. *)
Inductive call : Type :=
| CallNewClient
| CallObjects (bucketName prefix : string)
| CallNext
| CallClose.

(** What a run leaves behind: the text written to standard output and the
    backend calls made. *)
Record World : Type := {
  stdout : string;
  calls : list call
}.

Definition start : World := {| stdout := ""; calls := [] |}.

Definition print (s : string) (w : World) : World :=
  {| stdout := stdout w ++ s; calls := calls w |}.

Definition doCall (c : call) (w : World) : World :=
  {| stdout := stdout w; calls := (calls w ++ [c])%list |}.

Definition newline : string := String "010"%char EmptyString.

(** Modelled from the spec: the listing of the storage service (package
    [cloud.google.com/go/storage], not part of the sources), section 4.3:
    the keys of the bucket under the prefix, in the backend's listing
    order, with no error. *)
Definition listing (keys : list string) (prefix : string) : list next :=
  map Attrs (filter (fun key => strings.HasPrefix key prefix) keys).

Definition storageOf (buckets : string -> list string) : Backend :=
  {| NewClient := None;
     Objects := fun bucketName prefix => listing (buckets bucketName) prefix |}.

(** ** [listObjectsWithWildcard] *)

(** Step 1 of [listObjectsWithWildcard], "Parse the GCS Path": the bucket
    name and the object pattern, or the error returned. *)
Definition parsePath (gcsPath : string) : error + string * string :=
  (* The path must start with "gs://". *)
  if negb (strings.HasPrefix gcsPath "gs://") then
    inl (errorString "invalid GCS path: must start with gs://")
  else
    let pathWithoutScheme := strings.TrimPrefix gcsPath "gs://" in
    let parts := strings.SplitN pathWithoutScheme "/" 2 in
    match parts with
    | [] => inl (errorString "invalid GCS path: bucket name is missing")
    | bucketName :: more =>
        if String.eqb bucketName "" then
          inl (errorString "invalid GCS path: bucket name is missing")
        else
          let objectPattern :=
            match more with
            | p :: _ => p          (* len(parts) > 1 *)
            | [] => ""
            end in
          (* An empty pattern lists everything in the bucket. *)
          let objectPattern :=
            if String.eqb objectPattern "" then "**" else objectPattern in
          inr (bucketName, objectPattern)
    end.

(** Step 4, the loop over the iterator: the error returned from inside the
    loop (if any), the flag [found], and the world. *)
Fixpoint iterate (bucketName objectPattern : string) (it : list next)
    (found : bool) (w : World) : option error * bool * World :=
  let w := doCall CallNext w in
  match it with
  | [] => (* iterator.Done *) (None, found, w)
  | NextErr err :: _ =>
      (Some (Errorf_w "failed to iterate objects: " err), found, w)
  | Attrs Name :: it' =>
      match doublestar.Match objectPattern Name with
      | (_, Some err) =>
          (Some (Errorf_w ("invalid glob pattern '" ++ objectPattern ++ "': ") err),
           found, w)
      | (matched, None) =>
          if matched then
            iterate bucketName objectPattern it' true
                    (print ("gs://" ++ bucketName ++ "/" ++ Name ++ newline) w)
          else iterate bucketName objectPattern it' found w
      end
  end.

(** [listObjectsWithWildcard(ctx, gcsPath)] against a backend: the error
    returned ([None] for [nil]) and the world after the call. *)
Definition listObjectsWithWildcard (be : Backend) (gcsPath : string)
    (w : World) : option error * World :=
  match parsePath gcsPath with
  | inl err => (Some err, w)
  | inr (bucketName, objectPattern) =>
      let w := doCall CallNewClient w in
      match NewClient be with
      | Some err => (Some (Errorf_w "failed to create GCS client: " err), w)
      | None =>
          (* from here on, [defer client.Close()] runs at every return *)
          let prefix := getPrefixFromPattern objectPattern in
          let w := print ("Listing objects in gs://" ++ bucketName
                          ++ " matching pattern: " ++ objectPattern ++ newline) w in
          let w := doCall (CallObjects bucketName prefix) w in
          match iterate bucketName objectPattern
                        (Objects be bucketName prefix) false w with
          | (Some err, _, w) => (Some err, doCall CallClose w)
          | (None, found, w) =>
              let w := if negb found
                       then print ("No objects found matching the pattern." ++ newline) w
                       else w in
              (None, doCall CallClose w)
          end
      end
  end.

(** The result set of a listing filtered with the full pattern: the keys,
    in listing order, on which the match predicate holds. *)
Definition matches (pattern : string) (keys : list string) : list string :=
  filter (fun key => fst (doublestar.Match pattern key)) keys.

(** ** Notions used in the statements *)

(** The lines that [listObjectsWithWildcard] writes. *)
Definition headerLine (bucketName objectPattern : string) : string :=
  "Listing objects in gs://" ++ bucketName ++ " matching pattern: "
  ++ objectPattern ++ newline.

Definition keyLine (bucketName key : string) : string :=
  "gs://" ++ bucketName ++ "/" ++ key ++ newline.

Definition noMatchLine : string :=
  "No objects found matching the pattern." ++ newline.

(** The text of several key lines, one after the other. *)
Definition keyLines (bucketName : string) (keys : list string) : string :=
  fold_right (fun key text => keyLine bucketName key ++ text) "" keys.

(** A string without the path separator. *)
Definition noSlash (s : string) : Prop :=
  ~ In "/"%char (list_ascii_of_string s).

(** [s] starts with [prefix], character for character. *)
Definition startsWith (s prefix : string) : Prop :=
  exists rest, s = prefix ++ rest.

(** A syntactically invalid glob pattern: one the matcher rejects. *)
Definition badPattern (pattern : string) : Prop :=
  doublestar.parse true pattern = None.

(** A character that stands for itself in a pattern. *)
Definition plainChar (c : ascii) : Prop :=
  c <> "*"%char /\ c <> "?"%char /\ c <> "["%char /\ c <> "\"%char.

Definition plain (s : string) : Prop :=
  forall c, In c (list_ascii_of_string s) -> plainChar c.

(** ** [showHelp] and [main] *)

(** The double quote character, as a string. *)
Definition dquote : string := String "034"%char EmptyString.

(** [showHelp()]: the usage text written to standard output; [prog] is
    [os.Args[0]]. *)
Definition showHelp (prog : string) (w : World) : World :=
  let w := print ("gcsls - List Google Cloud Storage objects with wildcard support"
                  ++ newline ++ newline) w in
  let w := print ("USAGE:" ++ newline) w in
  let w := print ("  " ++ prog ++ " [OPTIONS] " ++ dquote
                  ++ "gs://bucket/object-pattern" ++ dquote
                  ++ newline ++ newline) w in
  let w := print ("OPTIONS:" ++ newline) w in
  let w := print ("  -h, --help    Show this help message and exit"
                  ++ newline ++ newline) w in
  let w := print ("EXAMPLES:" ++ newline) w in
  let w := print ("  " ++ prog ++ " " ++ dquote ++ "gs://my-bucket/logs/**/*.log"
                  ++ dquote ++ newline) w in
  let w := print ("  " ++ prog ++ " " ++ dquote ++ "gs://my-bucket/data/*.csv"
                  ++ dquote ++ newline) w in
  let w := print ("  " ++ prog ++ " " ++ dquote ++ "gs://my-bucket/folder/**/data.txt"
                  ++ dquote ++ newline) w in
  let w := print ("  " ++ prog ++ " " ++ dquote ++ "gs://my-bucket/"
                  ++ dquote ++ newline ++ newline) w in
  let w := print ("DESCRIPTION:" ++ newline) w in
  let w := print ("  This tool lists objects in Google Cloud Storage that match a given pattern."
                  ++ newline) w in
  let w := print ("  It supports glob patterns including:" ++ newline) w in
  let w := print ("    *     - matches any sequence of characters (except /)"
                  ++ newline) w in
  let w := print ("    **    - matches any sequence of characters (including /)"
                  ++ newline) w in
  let w := print ("    ?     - matches any single character" ++ newline) w in
  let w := print ("    [abc] - matches any character in the set"
                  ++ newline ++ newline) w in
  let w := print ("AUTHENTICATION:" ++ newline) w in
  let w := print ("  Ensure you have authenticated with Google Cloud:" ++ newline) w in
  print ("    gcloud auth application-default login" ++ newline) w.

(** How the process ends: [main] returns (exit status 0) or [os.Exit] is
    called. *)
Inductive ending : Type :=
| Returned
| Exited (code : Z).

Definition exitStatus (e : ending) : Z :=
  match e with
  | Returned => 0
  | Exited code => code
  end.

(** A finished process: standard output and backend calls, standard error,
    and how it ended. *)
Record Process : Type := {
  world : World;
  stderr : string;
  ended : ending
}.

(** Does [s] end with a newline? *)
Fixpoint endsWithNewline (s : string) : bool :=
  match s with
  | EmptyString => false
  | String c EmptyString => Ascii.eqb c "010"
  | String _ s' => endsWithNewline s'
  end.

(** The line that the standard logger writes for a message: its header
    (date and time), the message, and a newline unless the message ends
    with one. *)
Definition logLine (logHeader msg : string) : string :=
  logHeader ++ msg ++ (if endsWithNewline msg then "" else newline).

(** [main()] of [main.go].  [os.Args] is [prog :: args], the program
    name and the command-line arguments; [logHeader] is the header the
    logger puts before a message.  [log.Fatalf] writes the message to
    standard error and exits with status 1. *)
Definition main (be : Backend) (logHeader prog : string) (args : list string)
    : Process :=
  let Args := prog :: args in
  (* Check for help flags first. *)
  if (length Args =? 2)%nat
     && (String.eqb (nth 1 Args "") "-h" || String.eqb (nth 1 Args "") "--help")
  then
    {| world := showHelp (nth 0 Args "") start; stderr := ""; ended := Exited 0 |}
  (* Check for the correct number of command-line arguments. *)
  else if negb (length Args =? 2)%nat then
    {| world := start;
       stderr := ("Usage: " ++ nth 0 Args "" ++ " " ++ dquote
                  ++ "gs://bucket/object-pattern" ++ dquote ++ newline)
                 ++ ("Example: " ++ nth 0 Args "" ++ " " ++ dquote
                     ++ "gs://my-bucket/logs/**/*.log" ++ dquote ++ newline)
                 ++ ("Use -h or --help for more information." ++ newline);
       ended := Exited 1 |}
  else
    let gcsPath := nth 1 Args "" in
    match listObjectsWithWildcard be gcsPath start with
    | (Some err, w) =>
        {| world := w;
           stderr := logLine logHeader ("Failed to list objects: " ++ Error err);
           ended := Exited 1 |}
    | (None, w) => {| world := w; stderr := ""; ended := Returned |}
    end.

(** The earlier version of the program, the second source file: its
    [listObjectsWithWildcard] and [getPrefixFromPattern] are the ones above,
    its [main] has no help flag and a two-line usage message. *)
Module part_000.

Definition main (be : Backend) (logHeader prog : string) (args : list string)
    : Process :=
  let Args := prog :: args in
  if negb (length Args =? 2)%nat then
    {| world := start;
       stderr := ("Usage: " ++ nth 0 Args "" ++ " " ++ dquote
                  ++ "gs://bucket/object-pattern" ++ dquote ++ newline)
                 ++ ("Example: " ++ nth 0 Args "" ++ " " ++ dquote
                     ++ "gs://my-bucket/logs/**/*.log" ++ dquote ++ newline);
       ended := Exited 1 |}
  else
    let gcsPath := nth 1 Args "" in
    match listObjectsWithWildcard be gcsPath start with
    | (Some err, w) =>
        {| world := w;
           stderr := logLine logHeader ("Failed to list objects: " ++ Error err);
           ended := Exited 1 |}
    | (None, w) => {| world := w; stderr := ""; ended := Returned |}
    end.

End part_000.

(** ** Notions used in the statements on the loop *)

(** The error with which the loop stops at the head of what is left of the
    listing: none at the end of the listing, the iteration error, or the
    error of the matcher on the candidate. *)
Definition stopError (objectPattern : string) (rest : list next) : option error :=
  match rest with
  | [] => None
  | NextErr err :: _ => Some (Errorf_w "failed to iterate objects: " err)
  | Attrs Name :: _ =>
      option_map
        (Errorf_w ("invalid glob pattern '" ++ objectPattern ++ "': "))
        (snd (doublestar.Match objectPattern Name))
  end.

(** The loop does stop at the head of [rest]. *)
Definition stopsAt (objectPattern : string) (rest : list next) : Prop :=
  match rest with
  | Attrs Name :: _ => snd (doublestar.Match objectPattern Name) <> None
  | _ => True
  end.

(** The matcher gives no error on any of the keys. *)
Definition noPatternError (objectPattern : string) (keys : list string) : Prop :=
  Forall (fun key => snd (doublestar.Match objectPattern key) = None) keys.

(** * Properties *)

(** ** Strings *)

Lemma append_assoc (a b c : string) : (a ++ b) ++ c = a ++ b ++ c.
Proof.
  induction a as [|x a IH]; simpl; [reflexivity | now rewrite IH].
Qed.

Lemma append_nil_r (a : string) : a ++ "" = a.
Proof.
  induction a as [|x a IH]; simpl; [reflexivity | now rewrite IH].
Qed.

Lemma HasPrefix_append (p s : string) : strings.HasPrefix (p ++ s) p = true.
Proof.
  induction p as [|x p IH]; simpl; [reflexivity|].
  now rewrite Ascii.eqb_refl, IH.
Qed.

Lemma HasPrefix_startsWith (s p : string) :
  strings.HasPrefix s p = true <-> startsWith s p.
Proof.
  split.
  - revert s. induction p as [|x p IH]; intros s H.
    + now exists s.
    + destruct s as [|c s]; simpl in H; [discriminate|].
      apply andb_true_iff in H. destruct H as [Hc Hs].
      apply Ascii.eqb_eq in Hc. subst c.
      destruct (IH _ Hs) as [rest ->]. now exists rest.
  - intros [rest ->]. apply HasPrefix_append.
Qed.

Lemma sliceTo_append (pre rest : string) :
  strings.sliceTo (pre ++ rest) (Z.of_nat (String.length pre)) = pre.
Proof.
  unfold strings.sliceTo. rewrite Nat2Z.id.
  induction pre as [|x pre IH]; simpl.
  - now destruct rest.
  - now rewrite IH.
Qed.

Lemma sliceFrom_append (pre rest : string) :
  strings.sliceFrom (pre ++ rest) (String.length pre) = rest.
Proof.
  induction pre as [|x pre IH]; simpl; [now destruct rest | exact IH].
Qed.

Lemma containsByte_wildcard (c : ascii) :
  strings.containsByte "*?[" c = true <-> isWildcard c.
Proof.
  unfold isWildcard. simpl. rewrite !orb_true_iff, !Ascii.eqb_eq.
  intuition discriminate.
Qed.

Lemma wildcardFree_nil : wildcardFree "".
Proof. intros c []. Qed.

Lemma wildcardFree_cons (c : ascii) (s : string) :
  ~ isWildcard c -> wildcardFree s -> wildcardFree (String c s).
Proof.
  intros Hc Hs d [<- | Hd]; [exact Hc | now apply Hs].
Qed.

Lemma IndexAny_nonneg_or_none (s chars : string) :
  strings.IndexAny s chars = -1 \/ 0 <= strings.IndexAny s chars.
Proof.
  induction s as [|c s IH]; simpl; [now left|].
  destruct (strings.containsByte chars c); [right; lia|].
  destruct (strings.IndexAny s chars =? -1) eqn:E; [now left | right].
  apply Z.eqb_neq in E. lia.
Qed.

(** Either no wildcard occurs and [IndexAny] gives [-1], or the string
    splits at its first wildcard and [IndexAny] gives that position. *)
Lemma IndexAny_first_wildcard (s : string) :
  (wildcardFree s /\ strings.IndexAny s "*?[" = -1)
  \/ (exists pre c rest,
        s = pre ++ String c rest /\ isWildcard c /\ wildcardFree pre
        /\ strings.IndexAny s "*?[" = Z.of_nat (String.length pre)).
Proof.
  induction s as [|c s IH].
  - left. split; [apply wildcardFree_nil | reflexivity].
  - change (strings.IndexAny (String c s) "*?[")
      with (if strings.containsByte "*?[" c then 0
            else let i := strings.IndexAny s "*?[" in
                 if i =? -1 then -1 else i + 1).
    destruct (strings.containsByte "*?[" c) eqn:Hc.
    + right. exists "", c, s. apply containsByte_wildcard in Hc.
      repeat split; [exact Hc | apply wildcardFree_nil].
    + assert (Hn : ~ isWildcard c).
      { intro H. apply containsByte_wildcard in H. congruence. }
      destruct IH as [[Hfree Hidx] | (pre & d & rest & -> & Hd & Hfree & Hidx)].
      * left. split; [now apply wildcardFree_cons|].
        cbv zeta. now rewrite Hidx.
      * right. exists (String c pre), d, rest.
        repeat split; [exact Hd | now apply wildcardFree_cons|].
        cbv zeta. rewrite Hidx.
        replace (Z.of_nat (String.length pre) =? -1) with false
          by (symmetry; apply Z.eqb_neq; lia).
        simpl String.length. lia.
Qed.

(** ** [getPrefixFromPattern] *)

Lemma getPrefixFromPattern_wildcardFree (pattern : string) :
  wildcardFree pattern -> getPrefixFromPattern pattern = pattern.
Proof.
  intros Hfree. unfold getPrefixFromPattern.
  destruct (IndexAny_first_wildcard pattern)
    as [[_ ->] | (pre & c & rest & -> & Hc & _ & _)]; [reflexivity|].
  exfalso. apply (Hfree c); [|exact Hc].
  clear. induction pre as [|x pre IH]; simpl; auto.
Qed.

Lemma getPrefixFromPattern_split (pre : string) (c : ascii) (rest : string) :
  wildcardFree pre -> isWildcard c ->
  getPrefixFromPattern (pre ++ String c rest) = pre.
Proof.
  intros Hfree Hc. unfold getPrefixFromPattern.
  assert (Hidx : strings.IndexAny (pre ++ String c rest) "*?["
                 = Z.of_nat (String.length pre)).
  { induction pre as [|x pre IH].
    - apply containsByte_wildcard in Hc.
      change (strings.IndexAny ("" ++ String c rest) "*?[")
        with (if strings.containsByte "*?[" c then 0
              else let i := strings.IndexAny rest "*?[" in
                   if i =? -1 then -1 else i + 1).
      now rewrite Hc.
    - change (strings.IndexAny (String x pre ++ String c rest) "*?[")
        with (if strings.containsByte "*?[" x then 0
              else let i := strings.IndexAny (pre ++ String c rest) "*?[" in
                   if i =? -1 then -1 else i + 1).
      destruct (strings.containsByte "*?[" x) eqn:Hx.
      + exfalso. apply containsByte_wildcard in Hx.
        apply (Hfree x); [now left | exact Hx].
      + cbv zeta. rewrite IH.
        * replace (Z.of_nat (String.length pre) =? -1) with false
            by (symmetry; apply Z.eqb_neq; lia).
          simpl String.length. lia.
        * intros d Hd. apply Hfree. now right. }
  rewrite Hidx.
  replace (Z.of_nat (String.length pre) =? -1) with false
    by (symmetry; apply Z.eqb_neq; lia).
  apply sliceTo_append.
Qed.

(** C6: [getPrefixFromPattern] returns the whole pattern when none of ['*'],
    ['?'], ['['] occurs in it, and otherwise the substring strictly before
    the first occurrence of one of them; it maps ["logs/**/*.txt"] to
    ["logs/"]. *)
Theorem getPrefixFromPattern_before_first_wildcard :
  (forall pattern : string,
      (wildcardFree pattern /\ getPrefixFromPattern pattern = pattern)
      \/ (exists pre c rest,
            pattern = pre ++ String c rest /\ isWildcard c /\ wildcardFree pre
            /\ getPrefixFromPattern pattern = pre))
  /\ getPrefixFromPattern "logs/**/*.txt" = "logs/".
Proof.
  split; [|reflexivity].
  intros pattern.
  destruct (IndexAny_first_wildcard pattern)
    as [[Hfree _] | (pre & c & rest & -> & Hc & Hfree & _)].
  - left. split; [exact Hfree | now apply getPrefixFromPattern_wildcardFree].
  - right. exists pre, c, rest.
    repeat split; [exact Hc | exact Hfree |].
    now apply getPrefixFromPattern_split.
Qed.

(** C10: [getPrefixFromPattern p] is a literal prefix of [p], none of ['*'],
    ['?'], ['['] occurs in it, and [getPrefixFromPattern] is idempotent. *)
Theorem getPrefixFromPattern_prefix_idempotent (p : string) :
  startsWith p (getPrefixFromPattern p)
  /\ strings.HasPrefix p (getPrefixFromPattern p) = true
  /\ wildcardFree (getPrefixFromPattern p)
  /\ getPrefixFromPattern (getPrefixFromPattern p) = getPrefixFromPattern p.
Proof.
  assert (H : startsWith p (getPrefixFromPattern p)
              /\ wildcardFree (getPrefixFromPattern p)).
  { destruct (IndexAny_first_wildcard p)
      as [[Hfree _] | (pre & c & rest & -> & Hc & Hfree & _)].
    - rewrite (getPrefixFromPattern_wildcardFree _ Hfree).
      split; [exists ""; now rewrite append_nil_r | exact Hfree].
    - rewrite (getPrefixFromPattern_split _ _ _ Hfree Hc).
      split; [now exists (String c rest) | exact Hfree]. }
  destruct H as [Hpre Hfree].
  repeat split.
  - exact Hpre.
  - now apply HasPrefix_startsWith.
  - exact Hfree.
  - now apply getPrefixFromPattern_wildcardFree.
Qed.

(** ** Parsing the path *)

Lemma noSlash_cons (c : ascii) (s : string) :
  noSlash (String c s) -> c <> "/"%char /\ noSlash s.
Proof.
  unfold noSlash. simpl. intros H. split.
  - intros ->. apply H. now left.
  - intros Hs. apply H. now right.
Qed.

Lemma Index_slash_none (s : string) :
  noSlash s -> strings.Index s "/" = -1.
Proof.
  induction s as [|c s IH]; intros H; [reflexivity|].
  apply noSlash_cons in H. destruct H as [Hc Hs].
  simpl. apply Ascii.eqb_neq in Hc. rewrite Hc. simpl.
  now rewrite (IH Hs).
Qed.

Lemma Index_slash_first (b rest : string) :
  noSlash b ->
  strings.Index (b ++ String "/" rest) "/" = Z.of_nat (String.length b).
Proof.
  induction b as [|c b IH]; intros H; [reflexivity|].
  apply noSlash_cons in H. destruct H as [Hc Hs].
  simpl String.length. simpl strings.Index.
  apply Ascii.eqb_neq in Hc. rewrite Hc. simpl.
  rewrite (IH Hs).
  replace (Z.of_nat (String.length b) =? -1) with false
    by (symmetry; apply Z.eqb_neq; lia).
  lia.
Qed.

Lemma SplitN_no_slash (b : string) :
  noSlash b -> strings.SplitN b "/" 2 = [b].
Proof.
  intros H. unfold strings.SplitN, strings.splitLoop.
  now rewrite (Index_slash_none _ H).
Qed.

Lemma SplitN_slash (b rest : string) :
  noSlash b -> strings.SplitN (b ++ String "/" rest) "/" 2 = [b; rest].
Proof.
  intros H. unfold strings.SplitN, strings.splitLoop.
  rewrite (Index_slash_first _ _ H).
  replace (Z.of_nat (String.length b) <? 0) with false
    by (symmetry; apply Z.ltb_ge; lia).
  rewrite sliceTo_append, Nat2Z.id.
  replace (String.length b + String.length "/")%nat
    with (String.length (b ++ "/")).
  - change (String "/" rest) with ("/" ++ rest).
    now rewrite <- append_assoc, sliceFrom_append.
  - clear. induction b as [|c b IH]; simpl; [reflexivity | now rewrite IH].
Qed.

Lemma parsePath_scheme (rest : string) :
  parsePath ("gs://" ++ rest) =
  match strings.SplitN rest "/" 2 with
  | [] => inl (errorString "invalid GCS path: bucket name is missing")
  | bucketName :: more =>
      if String.eqb bucketName "" then
        inl (errorString "invalid GCS path: bucket name is missing")
      else
        let objectPattern := match more with p :: _ => p | [] => "" end in
        inr (bucketName,
             if String.eqb objectPattern "" then "**" else objectPattern)
  end.
Proof.
  unfold parsePath.
  rewrite HasPrefix_append. unfold strings.TrimPrefix.
  rewrite HasPrefix_append, sliceFrom_append. reflexivity.
Qed.

Lemma eqb_empty_false (s : string) : s <> "" -> String.eqb s "" = false.
Proof. intros H. now apply String.eqb_neq. Qed.

Lemma parsePath_bucket_only (bucketName : string) :
  bucketName <> "" -> noSlash bucketName ->
  parsePath ("gs://" ++ bucketName) = inr (bucketName, "**").
Proof.
  intros Hne Hns. rewrite parsePath_scheme, (SplitN_no_slash _ Hns).
  now rewrite (eqb_empty_false _ Hne).
Qed.

Lemma parsePath_bucket_pattern (bucketName objectPattern : string) :
  bucketName <> "" -> noSlash bucketName ->
  parsePath ("gs://" ++ bucketName ++ "/" ++ objectPattern) =
  inr (bucketName, if String.eqb objectPattern "" then "**" else objectPattern).
Proof.
  intros Hne Hns. rewrite parsePath_scheme.
  change ("/" ++ objectPattern) with (String "/" objectPattern).
  rewrite (SplitN_slash _ _ Hns).
  now rewrite (eqb_empty_false _ Hne).
Qed.

(** C8: an input that does not begin with ["gs://"] fails with the
    [InvalidPath] error "must start with gs://"; nothing is printed and the
    backend is not contacted (the world is unchanged). *)
Theorem listObjectsWithWildcard_missing_scheme
    (gcsPath : string) (be : Backend) (w : World) :
  ~ startsWith gcsPath "gs://" ->
  listObjectsWithWildcard be gcsPath w
    = (Some (errorString "invalid GCS path: must start with gs://"), w)
  /\ kindOf (errorString "invalid GCS path: must start with gs://")
     = Some InvalidPath.
Proof.
  intros H. split; [|reflexivity].
  unfold listObjectsWithWildcard, parsePath.
  destruct (strings.HasPrefix gcsPath "gs://") eqn:E; [|reflexivity].
  exfalso. apply H. now apply HasPrefix_startsWith.
Qed.

(** C9: an input that begins with ["gs://"] and whose bucket segment, the
    text before the first ['/'] after the scheme, is empty fails with the
    [InvalidPath] error "bucket name is missing"; nothing is printed and the
    backend is not contacted (the world is unchanged). *)
Theorem listObjectsWithWildcard_empty_bucket
    (rest : string) (be : Backend) (w : World) :
  rest = "" \/ startsWith rest "/" ->
  listObjectsWithWildcard be ("gs://" ++ rest) w
    = (Some (errorString "invalid GCS path: bucket name is missing"), w)
  /\ kindOf (errorString "invalid GCS path: bucket name is missing")
     = Some InvalidPath.
Proof.
  intros H. split; [|reflexivity].
  unfold listObjectsWithWildcard. rewrite parsePath_scheme.
  destruct H as [-> | [tail ->]]; reflexivity.
Qed.

(** ** The matcher *)

Lemma Match_valid (pattern : string) (ts : list doublestar.term) (name : string) :
  doublestar.parse true pattern = Some ts ->
  doublestar.Match pattern name = (doublestar.matchTerms ts name, None).
Proof. intros H. unfold doublestar.Match. now rewrite H. Qed.

Lemma Match_badPattern (pattern name : string) :
  badPattern pattern ->
  doublestar.Match pattern name = (false, Some doublestar.ErrBadPattern).
Proof. intros H. unfold doublestar.Match. now rewrite H. Qed.

Lemma Match_double_star (name : string) :
  doublestar.Match "**" name = (true, None).
Proof. reflexivity. Qed.

Lemma matches_valid (pattern : string) (ts : list doublestar.term)
    (keys : list string) :
  doublestar.parse true pattern = Some ts ->
  matches pattern keys = filter (doublestar.matchTerms ts) keys.
Proof.
  intros H. unfold matches. apply filter_ext. intros key.
  now rewrite (Match_valid _ _ _ H).
Qed.

(** ** The loop over the listing *)

Lemma keyLines_cons (bucketName key : string) (keys : list string) :
  keyLines bucketName (key :: keys)
  = keyLine bucketName key ++ keyLines bucketName keys.
Proof. reflexivity. Qed.

(** On a listing without errors and a valid pattern the loop ends without
    an error, having printed one line per matching key, in listing order,
    and having called [Next] once per key and once more for [Done]. *)
Lemma iterate_listing (bucketName objectPattern : string)
    (ts : list doublestar.term) :
  doublestar.parse true objectPattern = Some ts ->
  forall (keys : list string) (found : bool) (w : World),
    iterate bucketName objectPattern (map Attrs keys) found w
    = (None,
       found || existsb (doublestar.matchTerms ts) keys,
       {| stdout := stdout w
                    ++ keyLines bucketName (filter (doublestar.matchTerms ts) keys);
          calls := (calls w ++ repeat CallNext (S (length keys)))%list |}).
Proof.
  intros Hts keys.
  induction keys as [|key keys IH]; intros found w.
  - simpl. rewrite orb_false_r, append_nil_r. reflexivity.
  - cbn [map iterate]. rewrite (Match_valid _ _ key Hts).
    cbn [filter existsb length].
    destruct (doublestar.matchTerms ts key).
    + rewrite IH. cbn [print doCall stdout calls].
      rewrite orb_true_r. cbn [orb].
      rewrite keyLines_cons. fold (keyLine bucketName key).
      rewrite append_assoc, <- app_assoc. reflexivity.
    + rewrite IH. cbn [print doCall stdout calls orb].
      rewrite <- app_assoc. reflexivity.
Qed.

(** On a syntactically invalid pattern the loop stops at the first
    candidate with the pattern error. *)
Lemma iterate_badPattern (bucketName objectPattern Name : string)
    (it : list next) (found : bool) (w : World) :
  badPattern objectPattern ->
  iterate bucketName objectPattern (Attrs Name :: it) found w
  = (Some (Errorf_w ("invalid glob pattern '" ++ objectPattern ++ "': ")
                    doublestar.ErrBadPattern),
     found, doCall CallNext w).
Proof.
  intros H. cbn [iterate]. now rewrite (Match_badPattern _ _ H).
Qed.

Lemma kindOf_pattern_error (objectPattern : string) (err : error) :
  kindOf (Errorf_w ("invalid glob pattern '" ++ objectPattern ++ "': ") err)
  = Some PatternError.
Proof. reflexivity. Qed.

(** The run after a successful parse, on a backend whose client is created
    and whose listing has no error, for a valid pattern. *)
Lemma listObjectsWithWildcard_listing (be : Backend)
    (gcsPath bucketName objectPattern : string)
    (ts : list doublestar.term) (keys : list string) (w : World) :
  parsePath gcsPath = inr (bucketName, objectPattern) ->
  doublestar.parse true objectPattern = Some ts ->
  NewClient be = None ->
  Objects be bucketName (getPrefixFromPattern objectPattern) = map Attrs keys ->
  listObjectsWithWildcard be gcsPath w
  = (None,
     {| stdout := stdout w ++ headerLine bucketName objectPattern
                  ++ match matches objectPattern keys with
                     | [] => noMatchLine
                     | found => keyLines bucketName found
                     end;
        calls := (calls w
                  ++ [CallNewClient;
                      CallObjects bucketName (getPrefixFromPattern objectPattern)]
                  ++ repeat CallNext (S (length keys)) ++ [CallClose])%list |}).
Proof.
  intros Hpath Hts Hclient Hobjects.
  unfold listObjectsWithWildcard.
  rewrite Hpath, Hclient, Hobjects, (iterate_listing _ _ _ Hts).
  rewrite (matches_valid _ _ _ Hts).
  cbn [orb print doCall stdout calls].
  fold (headerLine bucketName objectPattern).
  assert (Hcalls :
    ((((calls w ++ [CallNewClient])
        ++ [CallObjects bucketName (getPrefixFromPattern objectPattern)])
       ++ repeat CallNext (S (length keys))) ++ [CallClose])%list
    = (calls w
       ++ [CallNewClient;
           CallObjects bucketName (getPrefixFromPattern objectPattern)]
       ++ repeat CallNext (S (length keys)) ++ [CallClose])%list).
  { rewrite <- !app_assoc. reflexivity. }
  assert (Hfound : existsb (doublestar.matchTerms ts) keys
                   = match filter (doublestar.matchTerms ts) keys with
                     | [] => false
                     | _ => true
                     end).
  { clear. induction keys as [|k keys IH]; simpl; [reflexivity|].
    destruct (doublestar.matchTerms ts k); [reflexivity | exact IH]. }
  rewrite Hfound.
  destruct (filter (doublestar.matchTerms ts) keys) as [|k found].
  - unfold print, doCall. cbn [negb stdout calls keyLines fold_right].
    fold noMatchLine.
    rewrite append_nil_r, Hcalls, append_assoc. reflexivity.
  - unfold doCall. cbn [negb stdout calls].
    rewrite Hcalls, append_assoc. reflexivity.
Qed.

Lemma listing_empty_prefix (keys : list string) :
  listing keys "" = map Attrs keys.
Proof.
  unfold listing. f_equal.
  change (filter (fun _ : string => true) keys = keys).
  induction keys as [|k keys IH]; simpl; congruence.
Qed.

Lemma Permutation_filter_keep {A : Type} (f : A -> bool) (l l' : list A) :
  Permutation l l' -> Permutation (filter f l) (filter f l').
Proof.
  induction 1 as [|x l l' _ IH|x y l|l l' l'' _ IH1 _ IH2]; simpl.
  - constructor.
  - destruct (f x); [now constructor | exact IH].
  - destruct (f x), (f y); try apply Permutation_refl. apply perm_swap.
  - now apply Permutation_trans with (filter f l').
Qed.

(** ** The claims on the matcher and on whole runs *)

(** C4: [**] is recursive: ["**/*.csv"] matches ["data.csv"] (no leading
    segment) and ["sub/dir/data.csv"] (several leading segments). *)
Theorem Match_double_star_recursive :
  doublestar.Match "**/*.csv" "data.csv" = (true, None)
  /\ doublestar.Match "**/*.csv" "sub/dir/data.csv" = (true, None).
Proof. split; reflexivity. Qed.

(** C5: a single [*] stays inside one path segment: ["*.csv"] matches
    ["data.csv"] and does not match ["sub/data.csv"]. *)
Theorem Match_star_one_segment :
  doublestar.Match "*.csv" "data.csv" = (true, None)
  /\ doublestar.Match "*.csv" "sub/data.csv" = (false, None).
Proof. split; reflexivity. Qed.

(** C7: when nothing follows the bucket name, or only a ['/'], the pattern
    becomes ["**"]; ["**"] matches every key, the listing is asked with the
    empty prefix, and the run prints one line for every key of the bucket
    (the no-match line when the bucket is empty). *)
Theorem empty_pattern_lists_every_key
    (bucketName gcsPath : string) (buckets : string -> list string) (w : World) :
  bucketName <> "" -> noSlash bucketName ->
  gcsPath = "gs://" ++ bucketName \/ gcsPath = "gs://" ++ bucketName ++ "/" ->
  parsePath gcsPath = inr (bucketName, "**")
  /\ (forall key, doublestar.Match "**" key = (true, None))
  /\ listObjectsWithWildcard (storageOf buckets) gcsPath w
     = (None,
        {| stdout := stdout w ++ headerLine bucketName "**"
                     ++ match buckets bucketName with
                        | [] => noMatchLine
                        | keys => keyLines bucketName keys
                        end;
           calls := (calls w ++ [CallNewClient; CallObjects bucketName ""]
                     ++ repeat CallNext (S (length (buckets bucketName)))
                     ++ [CallClose])%list |}).
Proof.
  intros Hne Hns Hpath.
  assert (Hparse : parsePath gcsPath = inr (bucketName, "**")).
  { destruct Hpath as [-> | ->].
    - now apply parsePath_bucket_only.
    - exact (parsePath_bucket_pattern bucketName "" Hne Hns). }
  split; [exact Hparse|]. split; [exact Match_double_star|].
  rewrite (listObjectsWithWildcard_listing (storageOf buckets) gcsPath
             bucketName "**" [doublestar.DoubleStarEnd]
             (buckets bucketName) w Hparse eq_refl eq_refl).
  - assert (Hall : matches "**" (buckets bucketName) = buckets bucketName).
    { unfold matches. generalize (buckets bucketName) as keys. intros keys.
      change (filter (fun _ : string => true) keys = keys).
      induction keys as [|k keys IH]; simpl; congruence. }
    rewrite Hall. reflexivity.
  - change (getPrefixFromPattern "**") with "".
    cbn [storageOf Objects]. apply listing_empty_prefix.
Qed.

(** C2, as amended: for a syntactically invalid pattern, a run whose path
    parses and whose client is created fails with the [PatternError] as soon
    as the listing yields a first candidate key; when the listing yields no
    candidate the run returns no error and prints the no-match line. *)
Theorem bad_pattern_fails_at_first_candidate
    (be : Backend) (gcsPath bucketName objectPattern : string) (w : World) :
  badPattern objectPattern ->
  parsePath gcsPath = inr (bucketName, objectPattern) ->
  NewClient be = None ->
  (forall Name it,
      Objects be bucketName (getPrefixFromPattern objectPattern) = Attrs Name :: it ->
      exists err,
        fst (listObjectsWithWildcard be gcsPath w) = Some err
        /\ err = Errorf_w ("invalid glob pattern '" ++ objectPattern ++ "': ")
                          doublestar.ErrBadPattern
        /\ kindOf err = Some PatternError)
  /\ (Objects be bucketName (getPrefixFromPattern objectPattern) = [] ->
      fst (listObjectsWithWildcard be gcsPath w) = None
      /\ stdout (snd (listObjectsWithWildcard be gcsPath w))
         = stdout w ++ headerLine bucketName objectPattern ++ noMatchLine).
Proof.
  intros Hbad Hpath Hclient. split.
  - intros Name it Hobjects. eexists. split; [|split; [reflexivity|]].
    + unfold listObjectsWithWildcard.
      rewrite Hpath, Hclient, Hobjects, (iterate_badPattern _ _ _ _ _ _ Hbad).
      reflexivity.
    + apply kindOf_pattern_error.
  - intros Hobjects. unfold listObjectsWithWildcard.
    rewrite Hpath, Hclient, Hobjects. cbn [iterate fst snd negb].
    split; [reflexivity|].
    unfold print, doCall. cbn [stdout].
    fold (headerLine bucketName objectPattern). fold noMatchLine.
    apply append_assoc.
Qed.

(** C2, the claim as stated fails: the unterminated bracket ["["] is an
    invalid pattern, the path parses, and on an empty bucket the run returns
    no error. *)
Lemma bad_pattern_without_candidates_succeeds :
  badPattern "["
  /\ parsePath "gs://bucket/[" = inr ("bucket", "[")
  /\ listObjectsWithWildcard (storageOf (fun _ => [])) "gs://bucket/[" start
     = (None,
        {| stdout := headerLine "bucket" "[" ++ noMatchLine;
           calls := [CallNewClient; CallObjects "bucket" ""; CallNext; CallClose] |}).
Proof. repeat split. Qed.

(** C3, as amended: for a bucket holding exactly the keys [a.csv],
    [b/a.csv], [b/c.txt], in whatever listing order, and the pattern
    ["*.csv"], the run returns no error and its standard output is the
    header line followed by the single key line [gs://bucket/a.csv]. *)
Theorem star_csv_output
    (buckets : string -> list string) :
  Permutation (buckets "bucket") ["a.csv"; "b/a.csv"; "b/c.txt"] ->
  fst (listObjectsWithWildcard (storageOf buckets) "gs://bucket/*.csv" start) = None
  /\ stdout (snd (listObjectsWithWildcard (storageOf buckets) "gs://bucket/*.csv" start))
     = headerLine "bucket" "*.csv" ++ keyLine "bucket" "a.csv".
Proof.
  intros Hperm.
  assert (Hts : exists ts, doublestar.parse true "*.csv" = Some ts)
    by (eexists; reflexivity).
  destruct Hts as [ts Hts].
  rewrite (listObjectsWithWildcard_listing (storageOf buckets) "gs://bucket/*.csv"
             "bucket" "*.csv" ts (buckets "bucket") start eq_refl Hts eq_refl).
  - cbn [fst snd stdout]. split; [reflexivity|].
    assert (Hm : matches "*.csv" (buckets "bucket") = ["a.csv"]).
    { apply Permutation_length_1_inv. unfold matches.
      change ["a.csv"]
        with (filter (fun key => fst (doublestar.Match "*.csv" key))
                     ["a.csv"; "b/a.csv"; "b/c.txt"]).
      apply Permutation_filter_keep, Permutation_sym, Hperm. }
    rewrite Hm. reflexivity.
  - change (getPrefixFromPattern "*.csv") with "".
    cbn [storageOf Objects]. apply listing_empty_prefix.
Qed.

(** C3, the claim as stated fails: on the bucket listed as [a.csv],
    [b/a.csv], [b/c.txt] the standard output is not the key line alone,
    the header line comes first. *)
Lemma star_csv_output_has_header :
  let out := stdout (snd (listObjectsWithWildcard
                            (storageOf (fun _ => ["a.csv"; "b/a.csv"; "b/c.txt"]))
                            "gs://bucket/*.csv" start)) in
  out = headerLine "bucket" "*.csv" ++ keyLine "bucket" "a.csv"
  /\ out <> keyLine "bucket" "a.csv".
Proof. split; [reflexivity | discriminate]. Qed.

(** ** Invalid patterns *)

(** A class whose closing bracket never comes is a syntax error. *)
Lemma classLoop_unterminated (negated : bool)
    (rest : string -> option (list doublestar.term)) :
  forall (n : nat) (q : string),
    (String.length q <= n)%nat ->
    ~ In "]"%char (list_ascii_of_string q) ->
    forall items last dash,
      doublestar.classLoop negated rest q items last dash = None.
Proof.
  induction n as [|n IH]; intros q Hlen Hno items last dash;
    destruct q as [|d q1]; try reflexivity; simpl in Hlen; [lia|].
  assert (Hd : Ascii.eqb d "]" = false).
  { apply Ascii.eqb_neq. intros ->. apply Hno. now left. }
  assert (Hq1 : ~ In "]"%char (list_ascii_of_string q1)).
  { intros H. apply Hno. now right. }
  unfold doublestar.classLoop. rewrite Hd.
  fold (doublestar.classLoop negated rest).
  destruct (Ascii.eqb d "\").
  - destruct q1 as [|e q2]; [reflexivity|].
    destruct (doublestar.classChar items last dash e) as [[items' last'] dash'].
    apply IH; [simpl in Hlen; lia|].
    intros H. apply Hq1. now right.
  - destruct (Ascii.eqb d "-" && negb dash
              && match last with Some _ => true | None => false end).
    + apply IH; [lia | exact Hq1].
    + destruct (doublestar.classChar items last dash d) as [[items' last'] dash'].
      apply IH; [lia | exact Hq1].
Qed.

(** An unterminated bracket after literal text makes the pattern invalid,
    whatever the text inside the bracket is. *)
Lemma badPattern_unterminated_bracket (pre body : string) :
  plain pre ->
  ~ In "]"%char (list_ascii_of_string body) ->
  badPattern (pre ++ String "[" body).
Proof.
  intros Hpre Hbody. unfold badPattern.
  enough (H : forall startOfSegment,
             doublestar.parse startOfSegment (pre ++ String "[" body) = None)
    by apply H.
  induction pre as [|c pre IH]; intros startOfSegment.
  - cbn [append doublestar.parse Ascii.eqb Bool.eqb].
    destruct body as [|n body1]; [reflexivity|].
    destruct (Ascii.eqb n "!" || Ascii.eqb n "^").
    + apply classLoop_unterminated with (n := String.length body1); [lia|].
      intros H. apply Hbody. now right.
    + now apply classLoop_unterminated with (n := String.length (String n body1)).
  - destruct (Hpre c (or_introl eq_refl)) as (H1 & H2 & H3 & H4).
    apply Ascii.eqb_neq in H1, H2, H3, H4.
    cbn [append doublestar.parse].
    rewrite H1, H2, H3, H4, IH; [reflexivity|].
    intros d Hd. apply Hpre. now right.
Qed.

(** ** The prefix of a pattern that quotes a wildcard *)

(** C1, at the input [gs://bucket/data\[1\].csv] on a bucket holding the key
    [data[1].csv]: the key satisfies the match predicate, yet it does not
    start with the prefix that [getPrefixFromPattern] returns (the text up
    to the quoted bracket, backslash included); filtering the unrestricted
    listing gives the key, filtering the listing under the prefix gives
    nothing, and the run prints the no-match line. *)
Theorem prefix_listing_misses_quoted_key :
  let pattern := "data\[1\].csv" in
  let key := "data[1].csv" in
  let prefix := getPrefixFromPattern pattern in
  parsePath "gs://bucket/data\[1\].csv" = inr ("bucket", pattern)
  /\ doublestar.Match pattern key = (true, None)
  /\ prefix = "data\"
  /\ strings.HasPrefix key prefix = false
  /\ matches pattern [key] = [key]
  /\ matches pattern (filter (fun k => strings.HasPrefix k prefix) [key]) = []
  /\ listObjectsWithWildcard (storageOf (fun _ => [key]))
                             "gs://bucket/data\[1\].csv" start
     = (None,
        {| stdout := headerLine "bucket" pattern ++ noMatchLine;
           calls := [CallNewClient; CallObjects "bucket" "data\";
                     CallNext; CallClose] |}).
Proof. repeat split. Qed.

(** ** The theorems at concrete inputs *)

Lemma listObjectsWithWildcard_missing_scheme_witness :
  ~ startsWith "s3://bucket/*.csv" "gs://"
  /\ listObjectsWithWildcard (storageOf (fun _ => ["a.csv"])) "s3://bucket/*.csv" start
     = (Some (errorString "invalid GCS path: must start with gs://"), start).
Proof.
  assert (H : ~ startsWith "s3://bucket/*.csv" "gs://")
    by (intros [rest Hrest]; discriminate Hrest).
  split; [exact H|].
  exact (proj1 (listObjectsWithWildcard_missing_scheme
                  "s3://bucket/*.csv" (storageOf (fun _ => ["a.csv"])) start H)).
Defined.

Lemma listObjectsWithWildcard_empty_bucket_witness :
  startsWith "/logs/*.txt" "/"
  /\ listObjectsWithWildcard (storageOf (fun _ => ["a.csv"])) "gs:///logs/*.txt" start
     = (Some (errorString "invalid GCS path: bucket name is missing"), start).
Proof.
  assert (H : startsWith "/logs/*.txt" "/") by (exists "logs/*.txt"; reflexivity).
  split; [exact H|].
  exact (proj1 (listObjectsWithWildcard_empty_bucket
                  "/logs/*.txt" (storageOf (fun _ => ["a.csv"])) start
                  (or_intror H))).
Defined.

Lemma empty_pattern_lists_every_key_witness :
  stdout (snd (listObjectsWithWildcard
                 (storageOf (fun _ => ["a.csv"; "b/a.csv"; "b/c.txt"]))
                 "gs://my-bucket/" start))
  = headerLine "my-bucket" "**"
    ++ keyLine "my-bucket" "a.csv" ++ keyLine "my-bucket" "b/a.csv"
    ++ keyLine "my-bucket" "b/c.txt".
Proof.
  assert (Hne : "my-bucket" <> "") by discriminate.
  assert (Hns : noSlash "my-bucket").
  { unfold noSlash. simpl. intuition discriminate. }
  pose proof (empty_pattern_lists_every_key
                "my-bucket" "gs://my-bucket/"
                (fun _ => ["a.csv"; "b/a.csv"; "b/c.txt"]) start
                Hne Hns (or_intror eq_refl)) as H.
  destruct H as (_ & _ & Hrun). rewrite Hrun. reflexivity.
Defined.

Lemma bad_pattern_fails_at_first_candidate_witness :
  badPattern "logs/[a-"
  /\ exists err,
       fst (listObjectsWithWildcard
              (storageOf (fun _ => ["logs/a.txt"; "other"])) "gs://bucket/logs/[a-" start)
       = Some err
       /\ Error err = "invalid glob pattern 'logs/[a-': syntax error in pattern"
       /\ kindOf err = Some PatternError.
Proof.
  assert (Hbad : badPattern "logs/[a-") by reflexivity.
  split; [exact Hbad|].
  destruct (proj1 (bad_pattern_fails_at_first_candidate
                     (storageOf (fun _ => ["logs/a.txt"; "other"]))
                     "gs://bucket/logs/[a-" "bucket" "logs/[a-" start
                     Hbad eq_refl eq_refl)
                  "logs/a.txt" [] eq_refl)
    as (err & Hrun & Herr & Hkind).
  exists err. split; [exact Hrun|]. split; [|exact Hkind].
  rewrite Herr. reflexivity.
Defined.

Lemma star_csv_output_witness :
  stdout (snd (listObjectsWithWildcard
                 (storageOf (fun _ => ["b/a.csv"; "a.csv"; "b/c.txt"]))
                 "gs://bucket/*.csv" start))
  = headerLine "bucket" "*.csv" ++ keyLine "bucket" "a.csv".
Proof.
  exact (proj2 (star_csv_output
                  (fun _ => ["b/a.csv"; "a.csv"; "b/c.txt"])
                  (perm_swap "a.csv" "b/a.csv" ["b/c.txt"]))).
Defined.

(** * Further properties of the code *)

(** ** Every outcome of parsing the path *)

Lemma first_slash_split (s : string) :
  noSlash s \/ exists b rest, s = b ++ String "/" rest /\ noSlash b.
Proof.
  induction s as [|c s IH].
  - left. intros [].
  - destruct (Ascii.eqb_spec c "/") as [-> | Hc].
    + right. exists "", s. split; [reflexivity | intros []].
    + destruct IH as [Hs | (b & rest & -> & Hb)].
      * left. intros [H | H]; [now apply Hc | now apply Hs].
      * right. exists (String c b), rest. split; [reflexivity|].
        intros [H | H]; [now apply Hc | now apply Hb].
Qed.

(** The four ways in which parsing ends. *)
Lemma parsePath_cases (gcsPath : string) :
  (~ startsWith gcsPath "gs://"
   /\ parsePath gcsPath
      = inl (errorString "invalid GCS path: must start with gs://"))
  \/ (exists tail, gcsPath = "gs://" ++ tail
        /\ (tail = "" \/ startsWith tail "/")
        /\ parsePath gcsPath
           = inl (errorString "invalid GCS path: bucket name is missing"))
  \/ (exists b, b <> "" /\ noSlash b
        /\ (gcsPath = "gs://" ++ b \/ gcsPath = "gs://" ++ b ++ "/")
        /\ parsePath gcsPath = inr (b, "**"))
  \/ (exists b p, b <> "" /\ noSlash b /\ p <> ""
        /\ gcsPath = "gs://" ++ b ++ "/" ++ p
        /\ parsePath gcsPath = inr (b, p)).
Proof.
  destruct (strings.HasPrefix gcsPath "gs://") eqn:Hscheme.
  - apply HasPrefix_startsWith in Hscheme. destruct Hscheme as [tail ->].
    right.
    destruct (first_slash_split tail) as [Hns | (b & rest & -> & Hns)].
    + destruct (String.eqb_spec tail "") as [-> | Hne].
      * left. exists "". split; [reflexivity|]. split; [now left | reflexivity].
      * right. left. exists tail.
        split; [exact Hne|]. split; [exact Hns|]. split; [now left|].
        now apply parsePath_bucket_only.
    + destruct (String.eqb_spec b "") as [-> | Hne].
      * left. exists (String "/" rest).
        split; [reflexivity|]. split; [right; now exists rest|].
        rewrite parsePath_scheme. reflexivity.
      * right.
        pose proof (parsePath_bucket_pattern b rest Hne Hns) as Hparse.
        change ("/" ++ rest) with (String "/" rest) in Hparse.
        destruct (String.eqb_spec rest "") as [-> | Hrest].
        -- left. exists b.
           split; [exact Hne|]. split; [exact Hns|]. split; [now right|].
           exact Hparse.
        -- right. exists b, rest.
           split; [exact Hne|]. split; [exact Hns|]. split; [exact Hrest|].
           split; [reflexivity | exact Hparse].
  - left. split.
    + intros H. apply HasPrefix_startsWith in H. congruence.
    + unfold parsePath. now rewrite Hscheme.
Qed.

(** X1: parsing succeeds exactly on the paths [gs://bucket],
    [gs://bucket/] and [gs://bucket/pattern] with a non-empty bucket name
    without ['/']; the first two give the pattern ["**"], the third keeps
    the non-empty pattern as it is, further separators included. *)
Theorem parsePath_success_iff (gcsPath bucketName objectPattern : string) :
  parsePath gcsPath = inr (bucketName, objectPattern)
  <-> bucketName <> "" /\ noSlash bucketName
      /\ ((objectPattern = "**"
           /\ (gcsPath = "gs://" ++ bucketName
               \/ gcsPath = "gs://" ++ bucketName ++ "/"))
          \/ (objectPattern <> ""
              /\ gcsPath = "gs://" ++ bucketName ++ "/" ++ objectPattern)).
Proof.
  split.
  - intros H.
    destruct (parsePath_cases gcsPath)
      as [[_ H1] | [(tail & _ & _ & H1) | [(b & Hne & Hns & Hshape & H1)
                                          | (b & p & Hne & Hns & Hp & Hshape & H1)]]];
      rewrite H1 in H; try discriminate; injection H as <- <-.
    + destruct Hshape as [-> | ->].
      * split; [exact Hne|]. split; [exact Hns|]. left. split; [reflexivity | now left].
      * split; [exact Hne|]. split; [exact Hns|]. left. split; [reflexivity | now right].
    + subst gcsPath. split; [exact Hne|]. split; [exact Hns|]. right. now split.
  - intros (Hne & Hns & [[-> [-> | ->]] | [Hp ->]]).
    + now apply parsePath_bucket_only.
    + exact (parsePath_bucket_pattern bucketName "" Hne Hns).
    + rewrite (parsePath_bucket_pattern bucketName objectPattern Hne Hns).
      now rewrite (eqb_empty_false _ Hp).
Qed.

(** X2: parsing fails in two ways only: with "must start with gs://" exactly
    when the path does not start with the scheme, and with "bucket name is
    missing" exactly when nothing, or a ['/'], follows the scheme. *)
Theorem parsePath_failure_iff (gcsPath : string) (err : error) :
  parsePath gcsPath = inl err
  <-> (~ startsWith gcsPath "gs://"
       /\ err = errorString "invalid GCS path: must start with gs://")
      \/ ((gcsPath = "gs://" \/ startsWith gcsPath "gs:///")
          /\ err = errorString "invalid GCS path: bucket name is missing").
Proof.
  split.
  - intros H.
    destruct (parsePath_cases gcsPath)
      as [[Hno H1] | [(tail & -> & Htail & H1) | [(b & _ & _ & _ & H1)
                                                 | (b & p & _ & _ & _ & _ & H1)]]];
      rewrite H1 in H; try discriminate; injection H as <-.
    + left. now split.
    + right. split; [|reflexivity].
      destruct Htail as [-> | [rest ->]]; [now left | right; now exists rest].
  - intros [[Hno ->] | [Hshape ->]].
    + unfold parsePath.
      destruct (strings.HasPrefix gcsPath "gs://") eqn:E; [|reflexivity].
      exfalso. apply Hno. now apply HasPrefix_startsWith.
    + destruct Hshape as [-> | [rest ->]]; reflexivity.
Qed.

(** ** The prefix of a pattern, continued *)

Lemma wildcardFree_append (a b : string) :
  wildcardFree a -> wildcardFree b -> wildcardFree (a ++ b).
Proof.
  intros Ha Hb. induction a as [|c a IH]; [exact Hb|].
  cbn [append]. apply wildcardFree_cons.
  - apply Ha. now left.
  - apply IH. intros d Hd. apply Ha. now right.
Qed.

Lemma getPrefixFromPattern_before_first_wildcard_cases (pattern : string) :
  (wildcardFree pattern /\ getPrefixFromPattern pattern = pattern)
  \/ (exists pre c rest,
        pattern = pre ++ String c rest /\ isWildcard c /\ wildcardFree pre
        /\ getPrefixFromPattern pattern = pre).
Proof.
  destruct (IndexAny_first_wildcard pattern)
    as [[Hfree _] | (pre & c & rest & -> & Hc & Hfree & _)].
  - left. split; [exact Hfree | now apply getPrefixFromPattern_wildcardFree].
  - right. exists pre, c, rest.
    split; [reflexivity|]. split; [exact Hc|]. split; [exact Hfree|].
    now apply getPrefixFromPattern_split.
Qed.

Lemma getPrefixFromPattern_append (pre rest : string) :
  wildcardFree pre ->
  getPrefixFromPattern (pre ++ rest) = pre ++ getPrefixFromPattern rest.
Proof.
  intros Hpre.
  destruct (IndexAny_first_wildcard rest)
    as [[Hfree _] | (mid & c & tail & -> & Hc & Hfree & _)].
  - rewrite (getPrefixFromPattern_wildcardFree rest Hfree).
    apply getPrefixFromPattern_wildcardFree.
    now apply wildcardFree_append.
  - rewrite (getPrefixFromPattern_split mid c tail Hfree Hc).
    rewrite <- append_assoc.
    apply getPrefixFromPattern_split; [|exact Hc].
    now apply wildcardFree_append.
Qed.

(** X3: literal text in front of a pattern goes into the prefix unchanged:
    for [pre] without wildcard, the prefix of [pre ++ rest] is [pre]
    followed by the prefix of [rest]. *)
Theorem getPrefixFromPattern_literal_head (pre rest : string) :
  wildcardFree pre ->
  getPrefixFromPattern (pre ++ rest) = pre ++ getPrefixFromPattern rest.
Proof.
  intros Hpre.
  destruct (getPrefixFromPattern_before_first_wildcard_cases rest)
    as [[Hfree Hrest] | (mid & c & tail & -> & Hc & Hfree & Hrest)];
    rewrite Hrest.
  - apply getPrefixFromPattern_wildcardFree. now apply wildcardFree_append.
  - rewrite <- append_assoc.
    apply getPrefixFromPattern_split; [|exact Hc].
    now apply wildcardFree_append.
Qed.

(** X4: the prefix is the longest one without wildcard: every leading part
    of the pattern in which no wildcard occurs is a leading part of
    [getPrefixFromPattern pattern]. *)
Theorem getPrefixFromPattern_longest (pattern q : string) :
  startsWith pattern q -> wildcardFree q ->
  startsWith (getPrefixFromPattern pattern) q.
Proof.
  intros [rest ->] Hq. rewrite (getPrefixFromPattern_append q rest Hq).
  now exists (getPrefixFromPattern rest).
Qed.

(** ** The loop, for any pattern and any listing *)

Lemma matches_cons (pattern key : string) (keys : list string) :
  matches pattern (key :: keys)
  = if fst (doublestar.Match pattern key)
    then key :: matches pattern keys else matches pattern keys.
Proof. reflexivity. Qed.

(** Every listing splits into the candidates that the matcher accepts
    without error and the rest, at whose head the loop stops. *)
Lemma listing_split (objectPattern : string) (it : list next) :
  exists processed rest,
    it = (map Attrs processed ++ rest)%list
    /\ noPatternError objectPattern processed
    /\ stopsAt objectPattern rest.
Proof.
  induction it as [|x it IH].
  - exists [], []. repeat split. constructor.
  - destruct x as [Name | err].
    + destruct (snd (doublestar.Match objectPattern Name)) as [e|] eqn:E.
      * exists [], (Attrs Name :: it). repeat split; [constructor|].
        cbn [stopsAt]. now rewrite E.
      * destruct IH as (processed & rest & -> & Hok & Hstop).
        exists (Name :: processed), rest. repeat split; [|exact Hstop].
        now constructor.
    + exists [], (NextErr err :: it). repeat split. constructor.
Qed.

(** Over candidates without pattern error the loop prints the matching
    ones and goes on with the rest. *)
Lemma iterate_candidates (bucketName objectPattern : string)
    (rest : list next) :
  forall (keys : list string) (found : bool) (w : World),
    noPatternError objectPattern keys ->
    iterate bucketName objectPattern (map Attrs keys ++ rest) found w
    = iterate bucketName objectPattern rest
        (found || match matches objectPattern keys with [] => false | _ => true end)
        {| stdout := stdout w ++ keyLines bucketName (matches objectPattern keys);
           calls := (calls w ++ repeat CallNext (length keys))%list |}.
Proof.
  induction keys as [|key keys IH]; intros found w Hok.
  - cbn [map app matches filter keyLines fold_right length repeat].
    rewrite orb_false_r, append_nil_r, app_nil_r. now destruct w.
  - inversion Hok as [|k ks Hkey Hkeys]; subst.
    cbn [map app iterate]. rewrite matches_cons.
    destruct (doublestar.Match objectPattern key) as [matched err] eqn:E.
    cbn [snd] in Hkey. subst err. cbn [fst].
    destruct matched.
    + rewrite (IH _ _ Hkeys). unfold print, doCall. cbn [stdout calls length repeat].
      rewrite orb_true_r, keyLines_cons. fold (keyLine bucketName key).
      rewrite append_assoc, <- app_assoc. reflexivity.
    + rewrite (IH _ _ Hkeys). unfold doCall. cbn [stdout calls length repeat].
      rewrite <- app_assoc. reflexivity.
Qed.

(** Where the loop stops it returns the stop error after one more [Next]. *)
Lemma iterate_stop (bucketName objectPattern : string) (rest : list next)
    (found : bool) (w : World) :
  stopsAt objectPattern rest ->
  iterate bucketName objectPattern rest found w
  = (stopError objectPattern rest, found, doCall CallNext w).
Proof.
  intros Hstop. destruct rest as [|[Name | err] rest]; [reflexivity| |reflexivity].
  cbn [iterate stopError]. cbn [stopsAt] in Hstop.
  destruct (doublestar.Match objectPattern Name) as [matched [e|]];
    [reflexivity | now elim Hstop].
Qed.

(** The run on a listing given as accepted candidates followed by the
    place where the loop stops. *)
Lemma listObjectsWithWildcard_split (be : Backend)
    (gcsPath bucketName objectPattern : string)
    (processed : list string) (rest : list next) (w : World) :
  parsePath gcsPath = inr (bucketName, objectPattern) ->
  NewClient be = None ->
  Objects be bucketName (getPrefixFromPattern objectPattern)
    = (map Attrs processed ++ rest)%list ->
  noPatternError objectPattern processed ->
  stopsAt objectPattern rest ->
  listObjectsWithWildcard be gcsPath w
  = (stopError objectPattern rest,
     {| stdout := stdout w ++ headerLine bucketName objectPattern
                  ++ match stopError objectPattern rest,
                           matches objectPattern processed with
                     | None, [] => noMatchLine
                     | _, printed => keyLines bucketName printed
                     end;
        calls := (calls w
                  ++ [CallNewClient;
                      CallObjects bucketName (getPrefixFromPattern objectPattern)]
                  ++ repeat CallNext (S (length processed)) ++ [CallClose])%list |}).
Proof.
  intros Hpath Hclient Hobjects Hok Hstop.
  unfold listObjectsWithWildcard.
  rewrite Hpath, Hclient, Hobjects, (iterate_candidates _ _ _ _ _ _ Hok),
    (iterate_stop _ _ _ _ _ Hstop).
  fold (headerLine bucketName objectPattern). fold noMatchLine.
  assert (Hcalls : forall tail : list call,
    (((((calls w ++ [CallNewClient])
         ++ [CallObjects bucketName (getPrefixFromPattern objectPattern)])
        ++ repeat CallNext (length processed)) ++ [CallNext]) ++ tail
     = calls w
       ++ [CallNewClient;
           CallObjects bucketName (getPrefixFromPattern objectPattern)]
       ++ repeat CallNext (S (length processed)) ++ tail)%list).
  { intros tail. rewrite <- !app_assoc. cbn [app]. do 3 f_equal.
    change (CallNext :: tail) with ([CallNext] ++ tail)%list.
    rewrite app_assoc. f_equal.
    change [CallNext] with (repeat CallNext 1).
    rewrite <- repeat_app. f_equal. apply Nat.add_1_r. }
  unfold print, doCall. cbn [stdout calls orb].
  destruct (stopError objectPattern rest) as [err|];
    destruct (matches objectPattern processed) as [|k printed];
    cbn [negb stdout calls keyLines fold_right];
    rewrite ?append_nil_r, Hcalls, ?append_assoc; reflexivity.
Qed.

(** ** Runs, for any backend *)

(** X5: once the path parses and the client is created, the run takes the
    listing up to its end or to the first result on which it stops (an
    iteration error, or a candidate on which the matcher fails): it returns
    the error of that place, prints the header line, then one line per
    matching candidate taken, in listing order, and the no-match line only
    when it ends without error and without a match; it closes the client. *)
Theorem listObjectsWithWildcard_outcome (be : Backend)
    (gcsPath bucketName objectPattern : string) (w : World) :
  parsePath gcsPath = inr (bucketName, objectPattern) ->
  NewClient be = None ->
  exists processed rest,
    Objects be bucketName (getPrefixFromPattern objectPattern)
      = (map Attrs processed ++ rest)%list
    /\ noPatternError objectPattern processed
    /\ stopsAt objectPattern rest
    /\ listObjectsWithWildcard be gcsPath w
       = (stopError objectPattern rest,
          {| stdout := stdout w ++ headerLine bucketName objectPattern
                       ++ match stopError objectPattern rest,
                                matches objectPattern processed with
                          | None, [] => noMatchLine
                          | _, printed => keyLines bucketName printed
                          end;
             calls := (calls w
                       ++ [CallNewClient;
                           CallObjects bucketName
                             (getPrefixFromPattern objectPattern)]
                       ++ repeat CallNext (S (length processed))
                       ++ [CallClose])%list |}).
Proof.
  intros Hpath Hclient.
  destruct (listing_split objectPattern
              (Objects be bucketName (getPrefixFromPattern objectPattern)))
    as (processed & rest & Hobjects & Hok & Hstop).
  exists processed, rest. repeat split; try assumption.
  now apply listObjectsWithWildcard_split.
Qed.

Lemma stopError_none (objectPattern : string) (rest : list next) :
  stopsAt objectPattern rest ->
  stopError objectPattern rest = None -> rest = [].
Proof.
  intros Hstop Hnone. destruct rest as [|[Name | err] rest];
    [reflexivity | | discriminate].
  cbn [stopsAt] in Hstop. cbn [stopError] in Hnone.
  destruct (snd (doublestar.Match objectPattern Name));
    [discriminate | now elim Hstop].
Qed.

(** X6: a run that returns no error has taken the whole listing: every
    result of the listing was a candidate, the matcher failed on none, and
    the output is the header line followed by the lines of all matching
    candidates, or by the no-match line when there is none. *)
Theorem listObjectsWithWildcard_success_complete (be : Backend)
    (gcsPath bucketName objectPattern : string) (w : World) :
  parsePath gcsPath = inr (bucketName, objectPattern) ->
  NewClient be = None ->
  fst (listObjectsWithWildcard be gcsPath w) = None ->
  exists keys,
    Objects be bucketName (getPrefixFromPattern objectPattern) = map Attrs keys
    /\ noPatternError objectPattern keys
    /\ stdout (snd (listObjectsWithWildcard be gcsPath w))
       = stdout w ++ headerLine bucketName objectPattern
         ++ match matches objectPattern keys with
            | [] => noMatchLine
            | printed => keyLines bucketName printed
            end
    /\ calls (snd (listObjectsWithWildcard be gcsPath w))
       = (calls w
          ++ [CallNewClient;
              CallObjects bucketName (getPrefixFromPattern objectPattern)]
          ++ repeat CallNext (S (length keys)) ++ [CallClose])%list.
Proof.
  intros Hpath Hclient Hnil.
  destruct (listing_split objectPattern
              (Objects be bucketName (getPrefixFromPattern objectPattern)))
    as (processed & rest & Hobjects & Hok & Hstop).
  rewrite (listObjectsWithWildcard_split be gcsPath bucketName objectPattern
             processed rest w Hpath Hclient Hobjects Hok Hstop) in *.
  cbn [fst snd stdout calls] in *.
  pose proof (stopError_none _ _ Hstop Hnil) as ->.
  rewrite app_nil_r in Hobjects.
  exists processed. repeat split; try assumption.
Qed.

(** X7: when the listing fails after some candidates, the run returns the
    iteration error wrapping the backend's error, a [BackendError]; the
    lines of the matching candidates seen before are printed, the no-match
    line is not, and the client is closed. *)
Theorem listObjectsWithWildcard_iteration_error (be : Backend)
    (gcsPath bucketName objectPattern : string)
    (keys : list string) (err : error) (more : list next) (w : World) :
  parsePath gcsPath = inr (bucketName, objectPattern) ->
  NewClient be = None ->
  Objects be bucketName (getPrefixFromPattern objectPattern)
    = (map Attrs keys ++ NextErr err :: more)%list ->
  noPatternError objectPattern keys ->
  listObjectsWithWildcard be gcsPath w
  = (Some (wrapError ("failed to iterate objects: " ++ Error err) err),
     {| stdout := stdout w ++ headerLine bucketName objectPattern
                  ++ keyLines bucketName (matches objectPattern keys);
        calls := (calls w
                  ++ [CallNewClient;
                      CallObjects bucketName (getPrefixFromPattern objectPattern)]
                  ++ repeat CallNext (S (length keys)) ++ [CallClose])%list |})
  /\ kindOf (wrapError ("failed to iterate objects: " ++ Error err) err)
     = Some BackendError.
Proof.
  intros Hpath Hclient Hobjects Hok. split; [|reflexivity].
  rewrite (listObjectsWithWildcard_split be gcsPath bucketName objectPattern
             keys (NextErr err :: more) w Hpath Hclient Hobjects Hok I).
  reflexivity.
Qed.

Lemma stopsAt_badPattern (objectPattern : string) (it : list next) :
  badPattern objectPattern -> stopsAt objectPattern it.
Proof.
  intros Hbad. destruct it as [|[Name | err] it]; cbn [stopsAt]; auto.
  now rewrite (Match_badPattern _ Name Hbad).
Qed.

(** X8: with a syntactically invalid pattern the run never goes past the
    first result of the listing and never prints a key line: it calls
    [Next] once, and ends with no error and the no-match line on an empty
    listing, with the iteration error when the first result is an error,
    and with the pattern error when it is a candidate. *)
Theorem listObjectsWithWildcard_badPattern (be : Backend)
    (gcsPath bucketName objectPattern : string) (w : World) :
  badPattern objectPattern ->
  parsePath gcsPath = inr (bucketName, objectPattern) ->
  NewClient be = None ->
  listObjectsWithWildcard be gcsPath w
  = (match Objects be bucketName (getPrefixFromPattern objectPattern) with
     | [] => None
     | NextErr err :: _ =>
         Some (wrapError ("failed to iterate objects: " ++ Error err) err)
     | Attrs _ :: _ =>
         Some (Errorf_w ("invalid glob pattern '" ++ objectPattern ++ "': ")
                        doublestar.ErrBadPattern)
     end,
     {| stdout := stdout w ++ headerLine bucketName objectPattern
                  ++ match Objects be bucketName
                             (getPrefixFromPattern objectPattern) with
                     | [] => noMatchLine
                     | _ => ""
                     end;
        calls := (calls w
                  ++ [CallNewClient;
                      CallObjects bucketName (getPrefixFromPattern objectPattern);
                      CallNext; CallClose])%list |}).
Proof.
  intros Hbad Hpath Hclient.
  rewrite (listObjectsWithWildcard_split be gcsPath bucketName objectPattern
             [] (Objects be bucketName (getPrefixFromPattern objectPattern)) w
             Hpath Hclient eq_refl (Forall_nil _)
             (stopsAt_badPattern _ _ Hbad)).
  destruct (Objects be bucketName (getPrefixFromPattern objectPattern))
    as [|[Name | err] it]; cbn [stopError]; try reflexivity.
  rewrite (Match_badPattern _ Name Hbad). reflexivity.
Qed.

Lemma listObjectsWithWildcard_parse_error (be : Backend) (gcsPath : string)
    (err : error) (w : World) :
  parsePath gcsPath = inl err ->
  listObjectsWithWildcard be gcsPath w = (Some err, w).
Proof. intros H. unfold listObjectsWithWildcard. now rewrite H. Qed.

Lemma listObjectsWithWildcard_client_error (be : Backend)
    (gcsPath bucketName objectPattern : string) (err : error) (w : World) :
  parsePath gcsPath = inr (bucketName, objectPattern) ->
  NewClient be = Some err ->
  listObjectsWithWildcard be gcsPath w
  = (Some (Errorf_w "failed to create GCS client: " err),
     doCall CallNewClient w).
Proof. intros H1 H2. unfold listObjectsWithWildcard. now rewrite H1, H2. Qed.

(** X9: every error that a run returns is of one of four origins, and is
    classified: an [InvalidPath] error of parsing, with the world
    unchanged; the [BackendError] wrapping the error of the client's
    creation; the [BackendError] wrapping an error that the listing gave;
    the [PatternError] wrapping the error of the matcher on a candidate of
    the listing. *)
Theorem listObjectsWithWildcard_errors (be : Backend) (gcsPath : string)
    (w : World) (err : error) :
  fst (listObjectsWithWildcard be gcsPath w) = Some err ->
  (parsePath gcsPath = inl err
   /\ kindOf err = Some InvalidPath
   /\ snd (listObjectsWithWildcard be gcsPath w) = w)
  \/ (exists e, NewClient be = Some e
        /\ err = Errorf_w "failed to create GCS client: " e
        /\ kindOf err = Some BackendError)
  \/ (exists bucketName objectPattern e,
        parsePath gcsPath = inr (bucketName, objectPattern)
        /\ In (NextErr e)
              (Objects be bucketName (getPrefixFromPattern objectPattern))
        /\ err = Errorf_w "failed to iterate objects: " e
        /\ kindOf err = Some BackendError)
  \/ (exists bucketName objectPattern Name e,
        parsePath gcsPath = inr (bucketName, objectPattern)
        /\ In (Attrs Name)
              (Objects be bucketName (getPrefixFromPattern objectPattern))
        /\ snd (doublestar.Match objectPattern Name) = Some e
        /\ err = Errorf_w ("invalid glob pattern '" ++ objectPattern ++ "': ") e
        /\ kindOf err = Some PatternError).
Proof.
  intros Herr.
  destruct (parsePath gcsPath) as [e | [bucketName objectPattern]] eqn:Hpath.
  - left.
    rewrite (listObjectsWithWildcard_parse_error be gcsPath e w Hpath) in *.
    cbn [fst snd] in *. injection Herr as ->.
    split; [reflexivity|]. split; [|reflexivity].
    destruct (parsePath_cases gcsPath)
      as [[_ H1] | [(tail & _ & _ & H1) | [(b & _ & _ & _ & H1)
                                          | (b & p & _ & _ & _ & _ & H1)]]];
      rewrite H1 in Hpath; try discriminate; injection Hpath as <-; reflexivity.
  - right. destruct (NewClient be) as [e|] eqn:Hclient.
    + left. exists e.
      rewrite (listObjectsWithWildcard_client_error be gcsPath bucketName
                 objectPattern e w Hpath Hclient) in Herr.
      cbn [fst] in Herr. injection Herr as <-.
      split; [reflexivity|]. split; reflexivity.
    + right.
      destruct (listing_split objectPattern
                  (Objects be bucketName (getPrefixFromPattern objectPattern)))
        as (processed & rest & Hobjects & Hok & Hstop).
      rewrite (listObjectsWithWildcard_split be gcsPath bucketName objectPattern
                 processed rest w Hpath Hclient Hobjects Hok Hstop) in Herr.
      cbn [fst] in Herr.
      destruct rest as [|[Name | e] rest]; [discriminate | |].
      * right. cbn [stopError] in Herr.
        destruct (snd (doublestar.Match objectPattern Name)) as [e|] eqn:E;
          [|discriminate].
        cbn [option_map] in Herr. injection Herr as <-.
        exists bucketName, objectPattern, Name, e.
        split; [reflexivity|]. split.
        { rewrite Hobjects. apply in_or_app. right. now left. }
        split; [exact E|]. split; [reflexivity | apply kindOf_pattern_error].
      * left. cbn [stopError] in Herr. injection Herr as <-.
        exists bucketName, objectPattern, e.
        split; [reflexivity|]. split.
        { rewrite Hobjects. apply in_or_app. right. now left. }
        split; reflexivity.
Qed.

(** X10: the calls that a run makes to the backend have one of three
    shapes.  None, when parsing fails.  Only the creation of the client,
    when it fails; nothing is printed then.  Otherwise the creation of the
    client, one listing request for the bucket under the prefix of the
    pattern, at least one and at most one more [Next] than the listing has
    results, and the closing of the client as the last call. *)
Theorem listObjectsWithWildcard_calls (be : Backend) (gcsPath : string)
    (w : World) :
  ((exists err, parsePath gcsPath = inl err)
   /\ snd (listObjectsWithWildcard be gcsPath w) = w)
  \/ ((exists err, NewClient be = Some err)
      /\ calls (snd (listObjectsWithWildcard be gcsPath w))
         = (calls w ++ [CallNewClient])%list
      /\ stdout (snd (listObjectsWithWildcard be gcsPath w)) = stdout w)
  \/ (exists bucketName objectPattern n,
        parsePath gcsPath = inr (bucketName, objectPattern)
        /\ NewClient be = None
        /\ (1 <= n <= S (length (Objects be bucketName
                                   (getPrefixFromPattern objectPattern))))%nat
        /\ calls (snd (listObjectsWithWildcard be gcsPath w))
           = (calls w
              ++ [CallNewClient;
                  CallObjects bucketName (getPrefixFromPattern objectPattern)]
              ++ repeat CallNext n ++ [CallClose])%list).
Proof.
  destruct (parsePath gcsPath) as [e | [bucketName objectPattern]] eqn:Hpath.
  - left. split; [now exists e|].
    now rewrite (listObjectsWithWildcard_parse_error be gcsPath e w Hpath).
  - right. destruct (NewClient be) as [e|] eqn:Hclient.
    + left. split; [now exists e|].
      rewrite (listObjectsWithWildcard_client_error be gcsPath bucketName
                 objectPattern e w Hpath Hclient).
      split; reflexivity.
    + right.
      destruct (listing_split objectPattern
                  (Objects be bucketName (getPrefixFromPattern objectPattern)))
        as (processed & rest & Hobjects & Hok & Hstop).
      exists bucketName, objectPattern, (S (length processed)).
      split; [reflexivity|]. split; [reflexivity|]. split.
      * rewrite Hobjects, length_app, length_map. lia.
      * now rewrite (listObjectsWithWildcard_split be gcsPath bucketName
                       objectPattern processed rest w Hpath Hclient
                       Hobjects Hok Hstop).
Qed.

(** ** [main] *)

Lemma main_one_argument (be : Backend) (logHeader prog a : string) :
  a <> "-h" -> a <> "--help" ->
  main be logHeader prog [a]
  = match listObjectsWithWildcard be a start with
    | (Some err, w) =>
        {| world := w;
           stderr := logLine logHeader ("Failed to list objects: " ++ Error err);
           ended := Exited 1 |}
    | (None, w) => {| world := w; stderr := ""; ended := Returned |}
    end.
Proof.
  intros H1 H2. unfold main. cbn [length Nat.eqb nth andb negb].
  apply String.eqb_neq in H1, H2. now rewrite H1, H2.
Qed.

Lemma main_help (be : Backend) (logHeader prog a : string) :
  a = "-h" \/ a = "--help" ->
  main be logHeader prog [a]
  = {| world := showHelp prog start; stderr := ""; ended := Exited 0 |}.
Proof. intros [-> | ->]; reflexivity. Qed.

Lemma main_usage (be : Backend) (logHeader prog : string) (args : list string) :
  length args <> 1%nat ->
  main be logHeader prog args
  = {| world := start;
       stderr := ("Usage: " ++ prog ++ " " ++ dquote
                  ++ "gs://bucket/object-pattern" ++ dquote ++ newline)
                 ++ ("Example: " ++ prog ++ " " ++ dquote
                     ++ "gs://my-bucket/logs/**/*.log" ++ dquote ++ newline)
                 ++ ("Use -h or --help for more information." ++ newline);
       ended := Exited 1 |}.
Proof.
  intros H. destruct args as [|a [|a' args]]; [reflexivity | | reflexivity].
  now elim H.
Qed.

Lemma help_or_not (a : string) :
  (a = "-h" \/ a = "--help") \/ (a <> "-h" /\ a <> "--help").
Proof.
  destruct (String.eqb_spec a "-h"); [now left; left|].
  destruct (String.eqb_spec a "--help"); [now left; right | now right].
Qed.

Lemma logLine_not_empty (logHeader rest : string) :
  logLine logHeader ("Failed to list objects: " ++ rest) <> "".
Proof.
  unfold logLine. destruct logHeader; discriminate.
Qed.

(** X11: [main] contacts the backend only when it is given exactly one
    argument, which is not a help flag and which parses as a path. *)
Theorem main_backend_calls (be : Backend) (logHeader prog : string)
    (args : list string) :
  calls (world (main be logHeader prog args)) <> [] ->
  exists a bucketName objectPattern,
    args = [a] /\ a <> "-h" /\ a <> "--help"
    /\ parsePath a = inr (bucketName, objectPattern).
Proof.
  intros Hcalls.
  destruct args as [|a [|a' args]].
  - now rewrite main_usage in Hcalls.
  - destruct (help_or_not a) as [Hhelp | [H1 H2]].
    + rewrite (main_help be logHeader prog a Hhelp) in Hcalls. now elim Hcalls.
    + destruct (parsePath a) as [err | [bucketName objectPattern]] eqn:Hpath.
      * rewrite (main_one_argument be logHeader prog a H1 H2),
          (listObjectsWithWildcard_parse_error be a err start Hpath) in Hcalls.
        now elim Hcalls.
      * now exists a, bucketName, objectPattern.
  - now rewrite main_usage in Hcalls.
Qed.

(** X12: [main] ends with exit status 0 or 1, and the status tells whether
    anything was written to standard error: status 0 goes with an empty
    standard error, status 1 with a message on it. *)
Theorem main_exit_status (be : Backend) (logHeader prog : string)
    (args : list string) :
  (exitStatus (ended (main be logHeader prog args)) = 0
   /\ stderr (main be logHeader prog args) = "")
  \/ (ended (main be logHeader prog args) = Exited 1
      /\ stderr (main be logHeader prog args) <> "").
Proof.
  destruct args as [|a [|a' args]].
  - right. rewrite main_usage by discriminate. split; [reflexivity | discriminate].
  - destruct (help_or_not a) as [Hhelp | [H1 H2]].
    + left. rewrite (main_help be logHeader prog a Hhelp). now split.
    + rewrite (main_one_argument be logHeader prog a H1 H2).
      destruct (listObjectsWithWildcard be a start) as [[err|] w].
      * right. split; [reflexivity | apply logLine_not_empty].
      * left. now split.
  - right. rewrite main_usage by discriminate. split; [reflexivity | discriminate].
Qed.

(** X13: a single argument that is not a help flag and does not parse as a
    path ends [main] with status 1, nothing on standard output and no call
    to the backend; standard error holds the logger's header, "Failed to
    list objects: ", the message of the parse error and a newline. *)
Theorem main_invalid_path (be : Backend) (logHeader prog a : string)
    (err : error) :
  a <> "-h" -> a <> "--help" ->
  parsePath a = inl err ->
  main be logHeader prog [a]
  = {| world := start;
       stderr := logHeader ++ "Failed to list objects: " ++ Error err ++ newline;
       ended := Exited 1 |}.
Proof.
  intros H1 H2 Hpath.
  rewrite (main_one_argument be logHeader prog a H1 H2),
    (listObjectsWithWildcard_parse_error be a err start Hpath).
  destruct (parsePath_cases a)
    as [[_ H] | [(tail & _ & _ & H) | [(b & _ & _ & _ & H)
                                      | (b & p & _ & _ & _ & _ & H)]]];
    rewrite H in Hpath; try discriminate; injection Hpath as <-; reflexivity.
Qed.

Lemma noPatternError_valid (objectPattern : string) (keys : list string) :
  ~ badPattern objectPattern -> noPatternError objectPattern keys.
Proof.
  intros Hvalid. apply Forall_forall. intros key _.
  unfold badPattern in Hvalid. unfold doublestar.Match.
  destruct (doublestar.parse true objectPattern); [reflexivity | now elim Hvalid].
Qed.

(** X14: finding nothing is not a failure: for a path [gs://bucket/pattern]
    with a valid pattern, on a bucket none of whose keys under the prefix
    matches, [main] returns (exit status 0) with the header line and the
    no-match line on standard output and nothing on standard error. *)
Theorem main_no_match (buckets : string -> list string)
    (logHeader prog bucketName objectPattern : string) :
  bucketName <> "" -> noSlash bucketName -> objectPattern <> "" ->
  ~ badPattern objectPattern ->
  matches objectPattern
    (filter (fun key => strings.HasPrefix key (getPrefixFromPattern objectPattern))
            (buckets bucketName)) = [] ->
  let p := main (storageOf buckets) logHeader prog
                ["gs://" ++ bucketName ++ "/" ++ objectPattern] in
  ended p = Returned
  /\ stderr p = ""
  /\ stdout (world p) = headerLine bucketName objectPattern ++ noMatchLine.
Proof.
  intros Hne Hns Hp Hvalid Hnone p. subst p.
  rewrite main_one_argument by discriminate.
  assert (Hpath : parsePath ("gs://" ++ bucketName ++ "/" ++ objectPattern)
                  = inr (bucketName, objectPattern)).
  { rewrite (parsePath_bucket_pattern bucketName objectPattern Hne Hns).
    now rewrite (eqb_empty_false _ Hp). }
  rewrite (listObjectsWithWildcard_split (storageOf buckets) _ bucketName
             objectPattern
             (filter (fun key => strings.HasPrefix key
                                   (getPrefixFromPattern objectPattern))
                     (buckets bucketName))
             [] start Hpath eq_refl).
  - cbn [stopError]. rewrite Hnone. now repeat split.
  - cbn [storageOf Objects]. unfold listing. now rewrite app_nil_r.
  - now apply noPatternError_valid.
  - exact I.
Qed.

(** X15: the two versions of [main].  On a single argument that is not a
    help flag they do the same.  On [-h] and [--help] the later one prints
    the help text and exits with status 0, the earlier one takes the flag
    for a path and exits with status 1; neither contacts the backend.  On
    any other number of arguments they differ only by the last line of the
    usage message. *)
Theorem main_versions (be : Backend) (logHeader prog : string) :
  (forall a, a <> "-h" -> a <> "--help" ->
     main be logHeader prog [a] = part_000.main be logHeader prog [a])
  /\ (forall a, a = "-h" \/ a = "--help" ->
        main be logHeader prog [a]
        = {| world := showHelp prog start; stderr := ""; ended := Exited 0 |}
        /\ part_000.main be logHeader prog [a]
           = {| world := start;
                stderr := logHeader
                          ++ "Failed to list objects: invalid GCS path: must start with gs://"
                          ++ newline;
                ended := Exited 1 |}
        /\ calls (showHelp prog start) = [])
  /\ (forall args, length args <> 1%nat ->
        world (main be logHeader prog args)
        = world (part_000.main be logHeader prog args)
        /\ ended (main be logHeader prog args)
           = ended (part_000.main be logHeader prog args)
        /\ stderr (main be logHeader prog args)
           = stderr (part_000.main be logHeader prog args)
             ++ "Use -h or --help for more information." ++ newline).
Proof.
  split; [|split].
  - intros a H1 H2. now rewrite (main_one_argument be logHeader prog a H1 H2).
  - intros a Ha. split; [now apply main_help|].
    destruct Ha as [-> | ->]; split; reflexivity.
  - intros args Hlen. rewrite (main_usage be logHeader prog args Hlen).
    destruct args as [|a [|a' args]]; [| now elim Hlen |];
      cbn [world ended stderr part_000.main length Nat.eqb negb nth];
      (split; [reflexivity|]; split; [reflexivity|]);
      rewrite !append_assoc; reflexivity.
Qed.

(** ** The further properties at concrete inputs *)

Lemma wildcardFree_logs : wildcardFree "logs/".
Proof.
  intros c Hc [H | [H | H]]; subst c; simpl in Hc;
    repeat (destruct Hc as [Hc | Hc]; [discriminate Hc|]); exact Hc.
Qed.

Lemma getPrefixFromPattern_literal_head_witness :
  getPrefixFromPattern ("logs/" ++ "app-*/x.txt") = "logs/" ++ "app-".
Proof.
  exact (getPrefixFromPattern_literal_head "logs/" "app-*/x.txt" wildcardFree_logs).
Defined.

Lemma getPrefixFromPattern_longest_witness :
  startsWith (getPrefixFromPattern "logs/app-*/x.txt") "logs/".
Proof.
  apply (getPrefixFromPattern_longest "logs/app-*/x.txt" "logs/").
  - now exists "app-*/x.txt".
  - exact wildcardFree_logs.
Defined.

Lemma listObjectsWithWildcard_outcome_witness :
  exists processed rest,
    Objects (storageOf (fun _ => ["a.csv"; "b.txt"])) "bucket"
            (getPrefixFromPattern "*.csv")
      = (map Attrs processed ++ rest)%list
    /\ fst (listObjectsWithWildcard (storageOf (fun _ => ["a.csv"; "b.txt"]))
                                    "gs://bucket/*.csv" start)
       = stopError "*.csv" rest.
Proof.
  destruct (listObjectsWithWildcard_outcome
              (storageOf (fun _ => ["a.csv"; "b.txt"]))
              "gs://bucket/*.csv" "bucket" "*.csv" start eq_refl eq_refl)
    as (processed & rest & Hobjects & _ & _ & Hrun).
  exists processed, rest. split; [exact Hobjects|].
  now rewrite Hrun.
Defined.

Lemma listObjectsWithWildcard_success_complete_witness :
  exists keys,
    Objects (storageOf (fun _ => ["a.csv"; "b.txt"])) "bucket"
            (getPrefixFromPattern "*.csv")
    = map Attrs keys.
Proof.
  destruct (listObjectsWithWildcard_success_complete
              (storageOf (fun _ => ["a.csv"; "b.txt"]))
              "gs://bucket/*.csv" "bucket" "*.csv" start
              eq_refl eq_refl eq_refl)
    as (keys & Hobjects & _).
  now exists keys.
Defined.

(** A backend whose listing fails after one object. *)
Lemma listObjectsWithWildcard_iteration_error_witness :
  fst (listObjectsWithWildcard
         {| NewClient := None;
            Objects := fun _ _ =>
              [Attrs "a.csv"; NextErr (errorString "connection reset")] |}
         "gs://bucket/*.csv" start)
  = Some (wrapError "failed to iterate objects: connection reset"
                    (errorString "connection reset")).
Proof.
  rewrite (proj1 (listObjectsWithWildcard_iteration_error
                    {| NewClient := None;
                       Objects := fun _ _ =>
                         [Attrs "a.csv"; NextErr (errorString "connection reset")] |}
                    "gs://bucket/*.csv" "bucket" "*.csv"
                    ["a.csv"] (errorString "connection reset") [] start
                    eq_refl eq_refl eq_refl
                    (Forall_cons "a.csv" eq_refl (Forall_nil _)))).
  reflexivity.
Defined.

Lemma listObjectsWithWildcard_badPattern_witness :
  calls (snd (listObjectsWithWildcard
                (storageOf (fun _ => ["a.csv"; "b.txt"])) "gs://bucket/[" start))
  = [CallNewClient; CallObjects "bucket" ""; CallNext; CallClose].
Proof.
  rewrite (listObjectsWithWildcard_badPattern
             (storageOf (fun _ => ["a.csv"; "b.txt"]))
             "gs://bucket/[" "bucket" "[" start eq_refl eq_refl eq_refl).
  reflexivity.
Defined.

Lemma listObjectsWithWildcard_errors_witness :
  kindOf (errorString "invalid GCS path: must start with gs://")
  = Some InvalidPath.
Proof.
  destruct (listObjectsWithWildcard_errors
              (storageOf (fun _ => [])) "s3://bucket/x" start
              (errorString "invalid GCS path: must start with gs://") eq_refl)
    as [(_ & Hkind & _) | [(e & He & _) | [(b & p & e & Hp & _)
                                          | (b & p & k & e & Hp & _)]]].
  - exact Hkind.
  - discriminate He.
  - discriminate Hp.
  - discriminate Hp.
Defined.

Lemma main_backend_calls_witness :
  exists a bucketName objectPattern,
    ["gs://bucket/*.csv"] = [a] /\ a <> "-h" /\ a <> "--help"
    /\ parsePath a = inr (bucketName, objectPattern).
Proof.
  apply (main_backend_calls (storageOf (fun _ => ["a.csv"])) "" "gcsls"
                            ["gs://bucket/*.csv"]).
  discriminate.
Defined.

Lemma main_invalid_path_witness :
  main (storageOf (fun _ => ["a.csv"])) "2024/01/01 00:00:00 " "gcsls"
       ["bucket/*.csv"]
  = {| world := start;
       stderr := "2024/01/01 00:00:00 "
                 ++ "Failed to list objects: invalid GCS path: must start with gs://"
                 ++ newline;
       ended := Exited 1 |}.
Proof.
  apply (main_invalid_path (storageOf (fun _ => ["a.csv"]))
                           "2024/01/01 00:00:00 " "gcsls" "bucket/*.csv"
                           (errorString "invalid GCS path: must start with gs://")).
  - discriminate.
  - discriminate.
  - reflexivity.
Defined.

Lemma main_no_match_witness :
  ended (main (storageOf (fun _ => ["a.txt"; "dir/b.csv"])) "" "gcsls"
              ["gs://bucket/*.csv"]) = Returned.
Proof.
  apply (main_no_match (fun _ => ["a.txt"; "dir/b.csv"]) "" "gcsls"
                       "bucket" "*.csv").
  - discriminate.
  - unfold noSlash. simpl. intuition discriminate.
  - discriminate.
  - unfold badPattern. discriminate.
  - reflexivity.
Defined.

(** ** Runs on a bucket *)

(** X16: on a bucket of the storage service and with a valid pattern, the
    run returns no error and prints, after the header line, one line for
    each key of the bucket that starts with the prefix of the pattern and
    matches the pattern, in listing order, or the no-match line when there
    is no such key; it calls [Next] once per key under the prefix and once
    more. *)
Theorem listObjectsWithWildcard_on_bucket (buckets : string -> list string)
    (gcsPath bucketName objectPattern : string) (w : World) :
  parsePath gcsPath = inr (bucketName, objectPattern) ->
  ~ badPattern objectPattern ->
  let listed :=
    filter (fun key => strings.HasPrefix key (getPrefixFromPattern objectPattern))
           (buckets bucketName) in
  listObjectsWithWildcard (storageOf buckets) gcsPath w
  = (None,
     {| stdout := stdout w ++ headerLine bucketName objectPattern
                  ++ match matches objectPattern listed with
                     | [] => noMatchLine
                     | printed => keyLines bucketName printed
                     end;
        calls := (calls w
                  ++ [CallNewClient;
                      CallObjects bucketName (getPrefixFromPattern objectPattern)]
                  ++ repeat CallNext (S (length listed)) ++ [CallClose])%list |}).
Proof.
  intros Hpath Hvalid listed.
  rewrite (listObjectsWithWildcard_split (storageOf buckets) gcsPath bucketName
             objectPattern listed [] w Hpath eq_refl).
  - reflexivity.
  - cbn [storageOf Objects]. unfold listing. now rewrite app_nil_r.
  - now apply noPatternError_valid.
  - exact I.
Qed.

Lemma listObjectsWithWildcard_on_bucket_witness :
  stdout (snd (listObjectsWithWildcard
                 (storageOf (fun _ => ["logs/a.txt"; "logs/x/b.txt"; "tmp/c.txt"]))
                 "gs://bucket/logs/**/*.txt" start))
  = headerLine "bucket" "logs/**/*.txt"
    ++ keyLine "bucket" "logs/a.txt" ++ keyLine "bucket" "logs/x/b.txt".
Proof.
  rewrite (listObjectsWithWildcard_on_bucket
             (fun _ => ["logs/a.txt"; "logs/x/b.txt"; "tmp/c.txt"])
             "gs://bucket/logs/**/*.txt" "bucket" "logs/**/*.txt" start eq_refl).
  - reflexivity.
  - unfold badPattern. discriminate.
Defined.
